(** * The [gas rm] command of the TensorBay CLI

    A shallow embedding of [tensorbay/cli/rm.py] and of the helpers of
    [tensorbay/cli/utility.py] it calls.  The command talks to a remote
    dataset service, prints to the error stream and leaves the process with
    [sys.exit]; the embedding keeps all three as a trace of events together
    with the way the call ended. *)

From Stdlib Require Import String Ascii ZArith List.
From stdpp Require Import base gmap strings list.
Import ListNotations.

Local Open Scope string_scope.
Local Open Scope list_scope.

(** ** Strings as Python uses them *)

(** The double-quote character of the f-strings. *)
Definition dquote : string := String (ascii_of_nat 34) EmptyString.

(** The line feed of ["\n"]. *)
Definition newline : string := String (ascii_of_nat 10) EmptyString.

(** [f'"{s}"'] *)
Definition quoted (s : string) : string := dquote +:+ s +:+ dquote.

(** Truth value of a [str]: only the empty string is false. *)
Definition truthy (s : string) : bool :=
  match s with
  | EmptyString => false
  | String _ _ => true
  end.

(** [s.startswith(p)] *)
Definition startswith (s p : string) : bool := String.prefix p s.

(** [s.endswith(suffix)] *)
Definition endswith (s suffix : string) : bool :=
  let n := String.length s in
  let m := String.length suffix in
  (m <=? n)%nat && String.eqb (substring (n - m) m s) suffix.

(** ** Resource names *)

(** Modelled from the spec: the [TBRNType] enumeration of [cli/tbrn.py],
    which is not part of the sources at hand.  The spec names [ROOT],
    [DATASET], [SEGMENT], [NORMAL_FILE] and [FUSION_FILE] and leaves the rest
    of the closed enumeration open; [OTHER n] stands for a member it does not
    name. *)
Inductive TBRNType : Type :=
| ROOT
| DATASET
| SEGMENT
| NORMAL_FILE
| FUSION_FILE
| OTHER (tag : nat).

#[global] Instance TBRNType_eq_dec : EqDecision TBRNType.
Proof. solve_decision. Defined.

(** Modelled from the spec: the version qualifier of a resource name, a closed
    sum of "none", a numbered draft and a committed revision. *)
Inductive VersionQualifier : Type :=
| NoVersion
| Draft (number : positive)
| Revision (revision_id : string).

#[global] Instance VersionQualifier_eq_dec : EqDecision VersionQualifier.
Proof. solve_decision. Defined.

(** Modelled from the spec: the [TBRN] value of [cli/tbrn.py] with the
    attributes [rm.py] and [utility.py] read. *)
Record TBRN : Type := {
  type : TBRNType;
  dataset_name : string;
  segment_name : string;
  remote_path : string;
  version : VersionQualifier
}.

(** [info.is_draft]: true exactly for the [Draft] case. *)
Definition is_draft (info : TBRN) : bool :=
  match version info with
  | Draft _ => true
  | _ => false
  end.

(** [info.draft_number] *)
Definition draft_number (info : TBRN) : option positive :=
  match version info with
  | Draft n => Some n
  | _ => None
  end.

(** [info.revision], [None] when the name carries no revision. *)
Definition revision (info : TBRN) : option string :=
  match version info with
  | Revision r => Some r
  | _ => None
  end.

(** The kinds the spec calls file kinds. *)
Definition is_file_kind (k : TBRNType) : bool :=
  match k with
  | NORMAL_FILE | FUSION_FILE => true
  | _ => false
  end.

(** ** The remote service and the command's observable behaviour *)

(** A dataset client: the dataset it was resolved for, whether it is a fusion
    dataset client, and the version context left by its last [checkout]. *)
Record DatasetClient : Type := {
  client_dataset : string;
  client_is_fusion : bool;
  client_status : VersionQualifier
}.

(** The segment client returned by [dataset_client.get_segment]. *)
Record SegmentClient : Type := {
  segment_dataset : DatasetClient;
  segment_client_name : string
}.

(** The logged-in client built by [GAS(access_key, url)]. *)
Record GAS : Type := {
  gas_access_key : string;
  gas_url : string
}.

(** What the command does to the outside world, in program order: the calls
    to the dataset-service client and the lines written with
    [click.echo(..., err=True)]. *)
Inductive Event : Type :=
| CallGetDataset (name : string) (is_fusion : option bool)
| CallCheckout (client : DatasetClient) (revision : option string)
    (draft_number : option positive)
| CallDeleteSegment (client : DatasetClient) (name : string)
| CallGetSegment (client : DatasetClient) (name : string)
| CallListDataPaths (segment : SegmentClient)
| CallDeleteData (segment : SegmentClient) (paths : gset string)
| Echo (message : string).

(** The exceptions the collaborators raise (the names of the spec). *)
Inductive Error : Type :=
| MalformedLocator
| KeyError
| NotFound
| DatasetTypeError
| NoSuchVersion
| RemoteError.

(** How a call ends: it returns, it leaves the process through
    [sys.exit(code)], or an exception escapes from it. *)
Inductive Outcome (A : Type) : Type :=
| Returned (a : A)
| Exited (code : Z)
| Raised (e : Error).

Arguments Returned {A} a.
Arguments Exited {A} code.
Arguments Raised {A} e.

(** A computation: its outcome and the events it produced on the way. *)
Definition M (A : Type) : Type := (Outcome A * list Event)%type.

#[global] Instance M_ret : MRet M := fun A a => (Returned a, []).

#[global] Instance M_bind : MBind M := fun A B f m =>
  match m with
  | (Returned a, t) => let '(o, t') := f a in (o, t ++ t')
  | (Exited c, t) => (Exited c, t)
  | (Raised e, t) => (Raised e, t)
  end.

Definition emit (e : Event) : M unit := (Returned tt, [e]).

Definition raise {A : Type} (e : Error) : M A := (Raised e, []).

(** [sys.exit(code)] *)
Definition sys_exit {A : Type} (code : Z) : M A := (Exited code, []).

(** [click.echo(message, err=True)] *)
Definition echo (message : string) : M unit := emit (Echo message).

(** An [if] statement without [else]. *)
Definition when (c : bool) (body : M unit) : M unit :=
  if c then body else mret tt.

(** The status the process ends with: 0 after a normal return, the argument
    of [sys.exit], and 1 when an exception reaches the interpreter. *)
Definition exit_status {A : Type} (o : Outcome A) : Z :=
  match o with
  | Returned _ => 0
  | Exited c => c
  | Raised _ => 1
  end.

(** The lines written to the error stream. *)
Definition echoes (t : list Event) : list string :=
  omap (fun e => match e with Echo s => Some s | _ => None end) t.

Definition is_client_call (e : Event) : bool :=
  match e with
  | Echo _ => false
  | _ => true
  end.

(** The calls made to the dataset-service client. *)
Definition client_calls (t : list Event) : list Event :=
  List.filter is_client_call t.

(** The calls of dataset resolution: lookup and checkout. *)
Definition is_resolution_call (e : Event) : bool :=
  match e with
  | CallGetDataset _ _ | CallCheckout _ _ _ => true
  | _ => false
  end.

(** The calls that change remote state. *)
Definition is_delete_call (e : Event) : bool :=
  match e with
  | CallDeleteSegment _ _ | CallDeleteData _ _ => true
  | _ => false
  end.

(** The remote dataset service, as far as the command can observe it. *)
Record Service : Type := {
  (** the datasets that exist, each with its shape: [true] for fusion *)
  dataset_shape : string -> option bool;
  (** whether a dataset has the draft or revision asked for *)
  has_version : string -> option string -> option positive -> bool;
  (** the data paths of a segment in a version context, if it exists *)
  segment_paths : DatasetClient -> string -> option (list string);
  (** whether the service carries out a segment deletion *)
  accepts_delete_segment : DatasetClient -> string -> bool;
  (** whether the service carries out a batched data deletion *)
  accepts_delete_data : SegmentClient -> gset string -> bool
}.

(** The machine the command runs on: [os.name], [os.environ], [os.path] and
    the profiles [ConfigParser] reads from a file. *)
Record Host : Type := {
  os_name : string;
  environ : string -> option string;
  path_join : string -> string -> string;
  path_exists : string -> bool;
  config_sections : string -> string -> option (string -> option string)
}.

(** The [ctx.obj] dictionary [_implement_cli] fills. *)
Record Obj : Type := {
  access_key : string;
  url : string;
  profile_name : string
}.

(** ** The decisions of the design, in the spec's words *)

Inductive Rejection : Type :=
| InvalidTargetKind
| NotInDraft
| SegmentRequiresRecursive
| DirectoryRequiresRecursive.

Inductive Target : Type :=
| SegmentDeletion (segmentName : string)
| PathSetDeletion (segmentName remotePath : string) (recursive : bool).

Inductive DeletionDecision : Type :=
| Authorized (target : Target)
| Rejected (reason : Rejection).

(** The Deletion Authorizer as the spec words it (section 4.2): four rules,
    the first matching one wins.  It is the spec's side of the comparison with
    the guards of [_implement_rm]. *)
Definition authorize (info : TBRN) (recursive : bool) : DeletionDecision :=
  if negb (bool_decide (type info = SEGMENT)) && negb (is_file_kind (type info))
  then Rejected InvalidTargetKind
  else if negb (is_draft info) then Rejected NotInDraft
  else if bool_decide (type info = SEGMENT) then
    if negb recursive then Rejected SegmentRequiresRecursive
    else Authorized (SegmentDeletion (segment_name info))
  else
    if endswith (remote_path info) "/" && negb recursive
    then Rejected DirectoryRequiresRecursive
    else Authorized
           (PathSetDeletion (segment_name info) (remote_path info) recursive).

(** The user-visible diagnostics as the spec lists them (section 6); [locator]
    is the string the user typed, [canonical] the locator's canonical form. *)
Definition diagnostic (r : Rejection) (locator canonical : string) : string :=
  match r with
  | InvalidTargetKind => quoted locator +:+ " is an invalid path to remove"
  | NotInDraft =>
      "To remove the data, " +:+ quoted canonical
      +:+ " must be in draft status, like " +:+ quoted (canonical +:+ "#1")
  | SegmentRequiresRecursive =>
      "Please use -r option to remove the whole segment"
  | DirectoryRequiresRecursive => "Please use -r option to remove recursively"
  end.

(** The diagnostic of an empty resolved set (section 6). *)
Definition no_such_diagnostic (recursive : bool) (locator : string) : string :=
  "No such " +:+ (if recursive then "file or directory" else "file")
  +:+ " " +:+ quoted locator +:+ " ".

(** ** The path filter *)

(** Modelled from the spec: [filter_data], which [rm.py] imports from
    [utility.py] but which the [utility.py] at hand does not define.  Section
    4.3: without [recursive] the singleton of the requested path if it is
    listed verbatim, else nothing; with [recursive] every listed path that
    starts with the requested path, taken as a literal prefix. *)
Definition filter_data (data_list : list string) (remote_path : string)
    (is_recursive : bool) : gset string :=
  if is_recursive
  then list_to_set (List.filter (fun p => startswith p remote_path) data_list)
  else if bool_decide (remote_path ∈ data_list) then {[ remote_path ]} else ∅.

(** [not data] for a collection. *)
Definition is_empty (data : gset string) : bool := bool_decide (data = ∅).

Section Command.

(** The machine and the service the command runs against. *)
Variable host : Host.
Variable svc : Service.

(** Modelled from the spec: the constructor [TBRN(tbrn=...)] of [cli/tbrn.py]
    (not part of the sources at hand), a pure parser that yields a value or
    fails with a malformed-locator error ([None]). *)
Variable TBRN_init : string -> option TBRN.

(** Modelled from the spec: [str(info)], the canonical string form of a
    resource name, defined in the same absent [cli/tbrn.py]. *)
Variable TBRN_str : TBRN -> string.

(** *** The dataset-service client *)

(** Modelled from the spec: [gas.get_dataset(name, is_fusion)] of
    [tensorbay/client/gas.py] (not part of the sources at hand).  It fails
    with [NotFound] for a dataset that is absent; the overloads of
    [get_dataset_client] give the client for [is_fusion=False] the plain
    type and for [is_fusion=True] the fusion type, so a request whose flag
    disagrees with the shape of the dataset yields no client. *)
Definition gas_get_dataset (gas : GAS) (name : string) (is_fusion : bool)
    : M DatasetClient :=
  emit (CallGetDataset name (Some is_fusion));;
  match dataset_shape svc name with
  | None => raise NotFound
  | Some shape =>
      if Bool.eqb shape is_fusion
      then mret {| client_dataset := name; client_is_fusion := shape;
                   client_status := NoVersion |}
      else raise DatasetTypeError
  end.

(** Modelled from the spec: [gas._get_dataset_with_any_type(name)], the
    resolution that is polymorphic over the shape of the dataset. *)
Definition gas_get_dataset_with_any_type (gas : GAS) (name : string)
    : M DatasetClient :=
  emit (CallGetDataset name None);;
  match dataset_shape svc name with
  | None => raise NotFound
  | Some shape =>
      mret {| client_dataset := name; client_is_fusion := shape;
              client_status := NoVersion |}
  end.

(** Modelled from the spec: [dataset_client.checkout(revision, draft_number)],
    which switches the version context of the client or fails with
    [NoSuchVersion]. *)
Definition checkout (client : DatasetClient) (revision : option string)
    (draft_number : option positive) : M DatasetClient :=
  emit (CallCheckout client revision draft_number);;
  if has_version svc (client_dataset client) revision draft_number
  then mret {| client_dataset := client_dataset client;
               client_is_fusion := client_is_fusion client;
               client_status :=
                 match draft_number, revision with
                 | Some n, _ => Draft n
                 | None, Some r => Revision r
                 | None, None => NoVersion
                 end |}
  else raise NoSuchVersion.

(** Modelled from the spec: [dataset_client.delete_segment(name)]. *)
Definition delete_segment (client : DatasetClient) (name : string) : M unit :=
  emit (CallDeleteSegment client name);;
  if accepts_delete_segment svc client name then mret tt else raise RemoteError.

(** Modelled from the spec: [dataset_client.get_segment(name)]. *)
Definition get_segment (client : DatasetClient) (name : string)
    : M SegmentClient :=
  emit (CallGetSegment client name);;
  match segment_paths svc client name with
  | Some _ => mret {| segment_dataset := client; segment_client_name := name |}
  | None => raise NotFound
  end.

(** Modelled from the spec: [segment.list_data_paths()]. *)
Definition list_data_paths (segment : SegmentClient) : M (list string) :=
  emit (CallListDataPaths segment);;
  match segment_paths svc (segment_dataset segment)
          (segment_client_name segment) with
  | Some paths => mret paths
  | None => raise RemoteError
  end.

(** Modelled from the spec: [segment.delete_data(paths)]. *)
Definition delete_data (segment : SegmentClient) (paths : gset string)
    : M unit :=
  emit (CallDeleteData segment paths);;
  if accepts_delete_data svc segment paths then mret tt else raise RemoteError.

(** *** [utility.py] *)

(** [error(message)]: the colour of [click.secho] is not kept. *)
Definition error {A : Type} (message : string) : M A :=
  echo ("ERROR: " +:+ message);; sys_exit 1.

Definition get_config_filepath : M string :=
  let home := if String.eqb (os_name host) "nt" then "USERPROFILE" else "HOME" in
  match environ host home with
  | Some dir => mret (path_join host dir ".gasconfig")
  | None => raise KeyError
  end.

Definition read_config (config_filepath profile_name : string)
    : M (string * string) :=
  when (negb (path_exists host config_filepath))
    (error (config_filepath +:+ " not exist" +:+ newline +:+ newline
            +:+ "Please use 'gas config <accessKey>' to create config file"));;
  match config_sections host config_filepath profile_name with
  | None => raise KeyError
  | Some section =>
      match section "accessKey" with
      | None => raise KeyError
      | Some access_key =>
          let url := match section "url" with
                     | Some u => u
                     | None => EmptyString
                     end in
          mret (access_key, url)
      end
  end.

Definition get_gas (access_key url profile_name : string) : M GAS :=
  '(access_key, url) ←
    (if negb (truthy access_key) && negb (truthy url)
     then config_filepath ← get_config_filepath;
          read_config config_filepath profile_name
     else mret (access_key, url));
  when (negb (truthy access_key)) (error "AccessKey should be appointed");;
  mret {| gas_access_key := access_key; gas_url := url |}.

Definition get_dataset_client (gas : GAS) (info : TBRN)
    (is_fusion : option bool) : M DatasetClient :=
  dataset_client ←
    match is_fusion with
    | None => gas_get_dataset_with_any_type gas (dataset_name info)
    | Some is_fusion => gas_get_dataset gas (dataset_name info) is_fusion
    end;
  if is_draft info
  then checkout dataset_client None (draft_number info)
  else match revision info with
       | Some r => checkout dataset_client (Some r) None
       | None => mret dataset_client
       end.

(** *** [rm.py] *)

(** Lines 22 to 47 of [_implement_rm]: the guards and the deletion. *)
Definition rm_guards_and_delete (dataset_client : DatasetClient) (info : TBRN)
    (tbrn : string) (is_recursive : bool) : M unit :=
  when (negb (bool_decide (type info ∈ [SEGMENT; NORMAL_FILE])))
    (echo (quoted tbrn +:+ " is an invalid path to remove");; sys_exit 1);;
  when (negb (is_draft info))
    (echo ("To remove the data, " +:+ quoted (TBRN_str info)
           +:+ " must be in draft status, like "
           +:+ quoted (TBRN_str info +:+ "#1"));;
     sys_exit 1);;
  if bool_decide (type info = SEGMENT) then
    when (negb is_recursive)
      (echo "Please use -r option to remove the whole segment";; sys_exit 1);;
    delete_segment dataset_client (segment_name info)
  else if endswith (remote_path info) "/" && negb is_recursive then
    echo "Please use -r option to remove recursively";; sys_exit 1
  else
    segment ← get_segment dataset_client (segment_name info);
    paths ← list_data_paths segment;
    let data := filter_data paths (remote_path info) is_recursive in
    when (is_empty data)
      (let echo_info := if is_recursive then "file or directory" else "file" in
       echo ("No such " +:+ echo_info +:+ " " +:+ quoted tbrn +:+ " ");;
       sys_exit 1);;
    delete_data segment data.

Definition _implement_rm (obj : Obj) (tbrn : string) (is_recursive : bool)
    : M unit :=
  gas ← get_gas (access_key obj) (url obj) (profile_name obj);
  info ← match TBRN_init tbrn with
         | Some info => mret info
         | None => raise MalformedLocator
         end;
  dataset_client ← get_dataset_client gas info (Some false);
  rm_guards_and_delete dataset_client info tbrn is_recursive.

(** The first guard of lines 22 to 39 that stops a request, if any. *)
Definition rm_guard (info : TBRN) (is_recursive : bool) : option Rejection :=
  if negb (bool_decide (type info ∈ [SEGMENT; NORMAL_FILE]))
  then Some InvalidTargetKind
  else if negb (is_draft info) then Some NotInDraft
  else if bool_decide (type info = SEGMENT) then
    if negb is_recursive then Some SegmentRequiresRecursive else None
  else if endswith (remote_path info) "/" && negb is_recursive
  then Some DirectoryRequiresRecursive
  else None.

(** The steps before the guards went through: the login returned [gas], the
    locator parsed to [info], and the dataset was resolved and checked out as
    [client], leaving the calls [calls]. *)
Definition Resolved (obj : Obj) (tbrn : string) (info : TBRN)
    (client : DatasetClient) (calls : list Event) : Prop :=
  ∃ gas,
    get_gas (access_key obj) (url obj) (profile_name obj) = (Returned gas, [])
    ∧ TBRN_init tbrn = Some info
    ∧ get_dataset_client gas info (Some false) = (Returned client, calls).

(** The ways lines 22 to 47 can run, for a client and a parsed locator. *)
Inductive GuardsRun (client : DatasetClient) (info : TBRN) (tbrn : string)
    (is_recursive : bool) : M unit -> Prop :=
| run_rejected (r : Rejection) :
    rm_guard info is_recursive = Some r ->
    GuardsRun client info tbrn is_recursive
      (Exited 1, [Echo (diagnostic r tbrn (TBRN_str info))])
| run_delete_segment :
    rm_guard info is_recursive = None ->
    type info = SEGMENT ->
    GuardsRun client info tbrn is_recursive
      (if accepts_delete_segment svc client (segment_name info)
       then Returned tt else Raised RemoteError,
       [CallDeleteSegment client (segment_name info)])
| run_no_segment :
    rm_guard info is_recursive = None ->
    type info ≠ SEGMENT ->
    segment_paths svc client (segment_name info) = None ->
    GuardsRun client info tbrn is_recursive
      (Raised NotFound, [CallGetSegment client (segment_name info)])
| run_no_target (paths : list string) :
    rm_guard info is_recursive = None ->
    type info ≠ SEGMENT ->
    segment_paths svc client (segment_name info) = Some paths ->
    filter_data paths (remote_path info) is_recursive = ∅ ->
    let segment := {| segment_dataset := client;
                      segment_client_name := segment_name info |} in
    GuardsRun client info tbrn is_recursive
      (Exited 1,
       [CallGetSegment client (segment_name info); CallListDataPaths segment;
        Echo (no_such_diagnostic is_recursive tbrn)])
| run_delete_data (paths : list string) :
    rm_guard info is_recursive = None ->
    type info ≠ SEGMENT ->
    segment_paths svc client (segment_name info) = Some paths ->
    filter_data paths (remote_path info) is_recursive ≠ ∅ ->
    let segment := {| segment_dataset := client;
                      segment_client_name := segment_name info |} in
    let data := filter_data paths (remote_path info) is_recursive in
    GuardsRun client info tbrn is_recursive
      (if accepts_delete_data svc segment data
       then Returned tt else Raised RemoteError,
       [CallGetSegment client (segment_name info); CallListDataPaths segment;
        CallDeleteData segment data]).

(** The ways an invocation can run. *)
Inductive RmRun (obj : Obj) (tbrn : string) (is_recursive : bool)
    : M unit -> Prop :=
| rm_login_exit (msg : string) :
    get_gas (access_key obj) (url obj) (profile_name obj)
    = (Exited 1, [Echo msg]) ->
    RmRun obj tbrn is_recursive (Exited 1, [Echo msg])
| rm_login_raise (e : Error) :
    get_gas (access_key obj) (url obj) (profile_name obj) = (Raised e, []) ->
    RmRun obj tbrn is_recursive (Raised e, [])
| rm_malformed (gas : GAS) :
    get_gas (access_key obj) (url obj) (profile_name obj) = (Returned gas, []) ->
    TBRN_init tbrn = None ->
    RmRun obj tbrn is_recursive (Raised MalformedLocator, [])
| rm_unresolved (gas : GAS) (info : TBRN) (e : Error) (calls : list Event) :
    get_gas (access_key obj) (url obj) (profile_name obj) = (Returned gas, []) ->
    TBRN_init tbrn = Some info ->
    get_dataset_client gas info (Some false) = (Raised e, calls) ->
    RmRun obj tbrn is_recursive (Raised e, calls)
| rm_resolved (info : TBRN) (client : DatasetClient) (calls : list Event)
    (o : Outcome unit) (t : list Event) :
    Resolved obj tbrn info client calls ->
    GuardsRun client info tbrn is_recursive (o, t) ->
    RmRun obj tbrn is_recursive (o, calls ++ t).

End Command.

(** ** A small installation to run the command on *)

Module Demo.

(** A POSIX machine whose [~/.gasconfig] has one profile. *)
Definition host : Host := {|
  os_name := "posix";
  environ := fun k => if String.eqb k "HOME" then Some "/home/u" else None;
  path_join := fun a b => a +:+ "/" +:+ b;
  path_exists := fun p => String.eqb p "/home/u/.gasconfig";
  config_sections := fun p profile =>
    if String.eqb p "/home/u/.gasconfig" && String.eqb profile "default"
    then Some (fun k => if String.eqb k "accessKey"
                        then Some "Accesskey-0123" else None)
    else None
|}.

(** A service with the plain dataset [ds1] and the fusion dataset [fds];
    every dataset has draft 1 and revision [v2]; segment [seg1] lists three
    files; deletions are carried out. *)
Definition svc : Service := {|
  dataset_shape := fun name =>
    if String.eqb name "ds1" then Some false
    else if String.eqb name "fds" then Some true
    else None;
  has_version := fun _ revision draft_number =>
    match draft_number, revision with
    | Some n, _ => bool_decide (n = 1%positive)
    | None, Some r => String.eqb r "v2"
    | None, None => false
    end;
  segment_paths := fun _ name =>
    if String.eqb name "seg1"
    then Some ["a/1.jpg"; "a/2.jpg"; "b/1.jpg"]
    else None;
  accepts_delete_segment := fun _ _ => true;
  accepts_delete_data := fun _ _ => true
|}.

Definition locator (k : TBRNType) (d s p : string) (v : VersionQualifier)
    : TBRN :=
  {| type := k; dataset_name := d; segment_name := s; remote_path := p;
     version := v |}.

Definition dataset_draft : TBRN :=
  locator DATASET "ds1" EmptyString EmptyString (Draft 1).

Definition segment_draft : TBRN :=
  locator SEGMENT "ds1" "seg1" EmptyString (Draft 1).

Definition segment_revision : TBRN :=
  locator SEGMENT "ds1" "seg1" EmptyString (Revision "v2").

Definition file_unversioned : TBRN :=
  locator NORMAL_FILE "ds1" "seg1" "a/1.jpg" NoVersion.

Definition file_missing_draft : TBRN :=
  locator NORMAL_FILE "ds1" "seg1" "a/3.jpg" (Draft 1).

Definition directory_draft : TBRN :=
  locator NORMAL_FILE "ds1" "seg1" "a/" (Draft 1).

Definition fusion_file_unversioned : TBRN :=
  locator FUSION_FILE "ds1" "seg1" "a/1.jpg" NoVersion.

Definition fusion_directory_draft : TBRN :=
  locator FUSION_FILE "ds1" "seg1" "a/" (Draft 1).

Definition fusion_segment_draft : TBRN :=
  locator SEGMENT "fds" "seg1" EmptyString (Draft 1).

(** The locators the examples use and the values they parse to. *)
Definition locators : list (string * TBRN) := [
  ("tb:ds1#1", dataset_draft);
  ("tb:ds1:seg1#1", segment_draft);
  ("tb:ds1:seg1#v2", segment_revision);
  ("tb:ds1:seg1/a/1.jpg", file_unversioned);
  ("tb:ds1:seg1/a/3.jpg#1", file_missing_draft);
  ("tb:ds1:seg1/a/#1", directory_draft);
  ("tb:ds1:seg1:cam/a/1.jpg", fusion_file_unversioned);
  ("tb:ds1:seg1:cam/a/#1", fusion_directory_draft);
  ("tb:fds:seg1#1", fusion_segment_draft)
].

(** A parser that knows exactly the locators above. *)
Definition TBRN_init (raw : string) : option TBRN :=
  snd <$> List.find (fun entry => String.eqb (fst entry) raw) locators.

(** The canonical form: the locator without its version qualifier. *)
Definition TBRN_str (info : TBRN) : string :=
  "tb:" +:+ dataset_name info
  +:+ (if truthy (segment_name info) then ":" +:+ segment_name info
       else EmptyString)
  +:+ (if truthy (remote_path info) then "/" +:+ remote_path info
       else EmptyString).

(** An invocation that names its access key on the command line. *)
Definition obj : Obj :=
  {| access_key := "Accesskey-0123"; url := EmptyString;
     profile_name := "default" |}.

Definition rm : string -> bool -> M unit :=
  _implement_rm host svc TBRN_init TBRN_str obj.

Definition ds1_client (v : VersionQualifier) : DatasetClient :=
  {| client_dataset := "ds1"; client_is_fusion := false; client_status := v |}.

Definition seg1_client : SegmentClient :=
  {| segment_dataset := ds1_client (Draft 1); segment_client_name := "seg1" |}.

(** The calls of resolving [ds1] and checking out its draft 1. *)
Definition draft_calls : list Event :=
  [CallGetDataset "ds1" (Some false);
   CallCheckout (ds1_client NoVersion) None (Some 1%positive)].

(** The calls of resolving [ds1] and checking out its revision [v2]. *)
Definition revision_calls : list Event :=
  [CallGetDataset "ds1" (Some false);
   CallCheckout (ds1_client NoVersion) (Some "v2") None].

(** The call of resolving [ds1] for a locator without version. *)
Definition lookup_calls : list Event := [CallGetDataset "ds1" (Some false)].

End Demo.



(** ** Cleaning up what the editor returns *)

(** A Python [str] is modelled by a [string] of code points below 256. *)

Definition LF : ascii := ascii_of_nat 10.

Definition CR : ascii := ascii_of_nat 13.

(** The line boundaries of [str.splitlines] among these code points: line
    feed, vertical tab, form feed, carriage return, the file, group and
    record separators, and next line. *)
Definition is_line_boundary (c : ascii) : bool :=
  bool_decide (nat_of_ascii c ∈ [10; 11; 12; 13; 28; 29; 30; 133]%nat).

(** The white space [str.rstrip()] and [str.lstrip()] remove: the code points
    for which [str.isspace] holds. *)
Definition isspace (c : ascii) : bool :=
  bool_decide
    (nat_of_ascii c ∈ [9; 10; 11; 12; 13; 28; 29; 30; 31; 32; 133; 160]%nat).

Fixpoint all_chars (p : ascii -> bool) (s : string) : bool :=
  match s with
  | EmptyString => true
  | String c rest => p c && all_chars p rest
  end.

(** A string without line boundary. *)
Definition single_line (s : string) : bool :=
  all_chars (fun c => negb (is_line_boundary c)) s.

(** [s.splitlines()]: the lines of [s] without their boundaries; a carriage
    return followed by a line feed is one boundary, and a boundary at the very
    end opens no further line. *)
Fixpoint splitlines (s : string) : list string :=
  match s with
  | EmptyString => []
  | String c rest =>
      if is_line_boundary c then
        EmptyString ::
          match rest with
          | EmptyString => []
          | String c' rest' =>
              if Ascii.eqb c CR && Ascii.eqb c' LF
              then splitlines rest' else splitlines rest
          end
      else
        match splitlines rest with
        | [] => [String c EmptyString]
        | line :: lines => String c line :: lines
        end
  end.

(** [s.rstrip()] *)
Fixpoint rstrip (s : string) : string :=
  match s with
  | EmptyString => EmptyString
  | String c rest =>
      match rstrip rest with
      | EmptyString => if isspace c then EmptyString else String c EmptyString
      | String _ _ as kept => String c kept
      end
  end.

(** [s.lstrip()] *)
Fixpoint lstrip (s : string) : string :=
  match s with
  | EmptyString => EmptyString
  | String c rest => if isspace c then lstrip rest else s
  end.

(** The test of the loop of [_clean_up]: [line and not
    line.startswith("#")]. *)
Definition is_content_line (line : string) : bool :=
  truthy line && negb (startswith line "#").

Definition _clean_up (editor_input : option string) : string * string :=
  match editor_input with
  | None => (EmptyString, EmptyString)
  | Some editor_input =>
      if negb (truthy editor_input) then (EmptyString, EmptyString)
      else
        let cleaned_up_lines :=
          List.map rstrip
            (List.filter is_content_line (splitlines editor_input)) in
        match cleaned_up_lines with
        | [] => (EmptyString, EmptyString)
        | first :: others => (lstrip first, String.concat newline others)
        end
  end.

(** Texts made of comment lines and empty lines only. *)
Inductive OnlyComments : string -> Prop :=
| only_nothing : OnlyComments EmptyString
| only_empty_line (rest : string) :
    OnlyComments rest -> OnlyComments (newline +:+ rest)
| only_comment_line (comment rest : string) :
    single_line comment = true ->
    OnlyComments rest ->
    OnlyComments ("#" +:+ comment +:+ newline +:+ rest)
| only_last_comment (comment : string) :
    single_line comment = true -> OnlyComments ("#" +:+ comment).

Section Editor.

Variable host : Host.

(** [click.edit(text, editor=editor)]: what the user saved, [None] when the
    editor was left without saving; the call may fail.  Opening the editor is
    not recorded as an event. *)
Variable click_edit : string -> option string -> M (option string).

Definition edit_input (hint : string) : M (string * string) :=
  config_file ← get_config_filepath host;
  let config_parser :=
    if path_exists host config_file then config_sections host config_file
    else fun _ => None in
  let editor := match config_parser "config" with
                | Some section => section "editor"
                | None => None
                end in
  input_info ← click_edit hint editor;
  mret (_clean_up input_info).

End Editor.

Module EditorDemo.

(** A user who keeps the hint and writes a title and two lines under it. *)
Definition writes_commit (hint : string) (editor : option string)
    : M (option string) :=
  mret (Some (hint +:+ "  Fix the parser  " +:+ newline +:+ newline
              +:+ "# a comment" +:+ newline
              +:+ "first line " +:+ String CR newline +:+ "second line"
              +:+ newline)).


(** A user who leaves the editor without saving. *)
Definition quits (hint : string) (editor : option string) : M (option string) :=
  mret None.

Definition hint : string :=
  newline +:+ "# Please enter the title." +:+ newline
  +:+ "# Lines starting with '#' are ignored." +:+ newline.

(** A machine without the variable that names the home directory. *)
Definition homeless : Host := {|
  os_name := "posix";
  environ := fun _ => None;
  path_join := fun a b => a +:+ "/" +:+ b;
  path_exists := fun _ => false;
  config_sections := fun _ _ => None
|}.

(** A machine with a home directory but no configuration file in it. *)
Definition unconfigured : Host := {|
  os_name := "posix";
  environ := fun k => if String.eqb k "HOME" then Some "/home/u" else None;
  path_join := fun a b => a +:+ "/" +:+ b;
  path_exists := fun _ => false;
  config_sections := fun _ _ => None
|}.


End EditorDemo.

(** * Properties *)

Set Default Proof Using "Type".

(** Login, parsing and resolution go through on the sample installation. *)
Ltac demo_resolved :=
  eexists; split; [reflexivity|split; reflexivity].

(** ** Running a computation *)

Lemma bind_returned {A B : Type} (f : A -> M B) (a : A) (t : list Event) :
  (Returned a, t) ≫= f = (let '(o, t') := f a in (o, t ++ t')).
Proof. reflexivity. Qed.

Lemma bind_exited {A B : Type} (f : A -> M B) (c : Z) (t : list Event) :
  (Exited c, t) ≫= f = (Exited c, t).
Proof. reflexivity. Qed.

Lemma bind_raised {A B : Type} (f : A -> M B) (e : Error) (t : list Event) :
  (Raised e, t) ≫= f = (Raised e, t).
Proof. reflexivity. Qed.

Lemma ret_bind {A B : Type} (f : A -> M B) (a : A) : mret a ≫= f = f a.
Proof. unfold mret, M_ret, mbind, M_bind. destruct (f a); reflexivity. Qed.

Lemma bind_returned_nil {A B : Type} (f : A -> M B) (a : A) :
  (Returned a, []) ≫= f = f a.
Proof. exact (ret_bind f a). Qed.

Lemma quoted_cons (s : string) :
  quoted s = String (ascii_of_nat 34) (s +:+ dquote).
Proof. reflexivity. Qed.

Section CommandFacts.

Variable host : Host.
Variable svc : Service.
Variable TBRN_init : string -> option TBRN.
Variable TBRN_str : TBRN -> string.

(** The login either returns silently, or reports one error and exits with
    status 1, or lets a [KeyError] escape. *)
Lemma get_gas_cases (a u p : string) :
  (∃ gas, get_gas host a u p = (Returned gas, []))
  ∨ (∃ msg, get_gas host a u p = (Exited 1, [Echo msg]))
  ∨ (∃ e, get_gas host a u p = (Raised e, [])).
Proof.
  unfold get_gas, get_config_filepath, read_config, when, error, echo, emit,
    sys_exit, raise.
  destruct (truthy a) eqn:Ha; cbn.
  - rewrite Ha; cbn. left. eexists. reflexivity.
  - destruct (truthy u) eqn:Hu; cbn.
    + rewrite Ha; cbn. right. left. eexists. reflexivity.
    + destruct (environ host _); cbn; [|right; right; eexists; reflexivity].
      destruct (path_exists host _); cbn;
        [|right; left; eexists; reflexivity].
      destruct (config_sections host _ _) as [sec|]; cbn;
        [|right; right; eexists; reflexivity].
      destruct (sec "accessKey") as [k|]; cbn;
        [|right; right; eexists; reflexivity].
      destruct (truthy k); cbn.
      * left. eexists. reflexivity.
      * right. left. eexists. reflexivity.
Qed.

(** Resolution with [is_fusion=False]: the lookup comes first; nothing is
    printed, nothing is listed or deleted, and the process is not left. *)
Lemma get_dataset_client_trace (gas : GAS) (info : TBRN) :
  ∃ rest,
    snd (get_dataset_client svc gas info (Some false))
    = CallGetDataset (dataset_name info) (Some false) :: rest
    ∧ Forall (fun e => is_resolution_call e = true) rest
    ∧ ∀ c, fst (get_dataset_client svc gas info (Some false)) ≠ Exited c.
Proof.
  unfold get_dataset_client, gas_get_dataset, checkout, emit, raise.
  destruct (dataset_shape svc (dataset_name info)) as [[|]|]; cbn;
    try (eexists; split; [reflexivity|split; [constructor|discriminate]]).
  unfold is_draft, draft_number, revision.
  destruct (version info) as [|n|r]; cbn;
    try destruct (has_version svc _ _ _); cbn;
    eexists; (split; [reflexivity|split; [repeat constructor|discriminate]]).
Qed.

(** A fusion dataset is refused by the lookup itself. *)
Lemma get_dataset_client_fusion (gas : GAS) (info : TBRN) :
  dataset_shape svc (dataset_name info) = Some true ->
  get_dataset_client svc gas info (Some false)
  = (Raised DatasetTypeError, [CallGetDataset (dataset_name info) (Some false)]).
Proof.
  intros Hs. unfold get_dataset_client, gas_get_dataset, emit, raise.
  rewrite Hs. reflexivity.
Qed.

(** After a resolution that returned, the client is in the version context
    the locator names. *)
Lemma get_dataset_client_status (gas : GAS) (info : TBRN)
    (client : DatasetClient) (calls : list Event) :
  get_dataset_client svc gas info (Some false) = (Returned client, calls) ->
  client_status client = version info.
Proof.
  unfold get_dataset_client, gas_get_dataset, checkout, emit, raise.
  destruct (dataset_shape svc (dataset_name info)) as [[|]|]; cbn;
    try discriminate.
  unfold is_draft, draft_number, revision.
  destruct (version info) as [|n|r]; cbn;
    try destruct (has_version svc _ _ _); cbn;
    intros H; inversion H; reflexivity.
Qed.

(** The lookup is always made with [is_fusion=False]. *)
Lemma get_dataset_client_lookup_flag (gas : GAS) (info : TBRN) (name : string)
    (flag : option bool) :
  CallGetDataset name flag ∈ snd (get_dataset_client svc gas info (Some false))
  -> flag = Some false.
Proof.
  unfold get_dataset_client, gas_get_dataset, checkout, emit, raise.
  destruct (dataset_shape svc (dataset_name info)) as [[|]|]; cbn;
    try (intros [= _ <-]%list_elem_of_singleton; reflexivity).
  unfold is_draft, draft_number, revision.
  destruct (version info) as [|n|r]; cbn;
    try destruct (has_version svc _ _ _); cbn; intros He;
    repeat (apply elem_of_cons in He as [He|He]; try discriminate);
    try (by apply elem_of_nil in He);
    injection He as _ <-; reflexivity.
Qed.

Lemma resolution_calls_facts (rest : list Event) :
  Forall (fun e => is_resolution_call e = true) rest ->
  echoes rest = [] ∧ client_calls rest = rest
  ∧ List.filter is_delete_call rest = [].
Proof.
  unfold echoes, client_calls.
  induction 1 as [|e rest He _ IH]; [done|].
  destruct IH as (IH1 & IH2 & IH3).
  destruct e; try discriminate; cbn; rewrite ?IH1, ?IH2, ?IH3; done.
Qed.

Lemma resolved_calls (obj : Obj) (tbrn : string) (info : TBRN)
    (client : DatasetClient) (calls : list Event) :
  Resolved host svc TBRN_init obj tbrn info client calls ->
  Forall (fun e => is_resolution_call e = true) calls.
Proof.
  intros (gas & _ & _ & Hc).
  destruct (get_dataset_client_trace gas info) as (rest & Ht & Hr & _).
  rewrite Hc in Ht. cbn in Ht. subst calls. constructor; done.
Qed.

Lemma unresolved_calls (gas : GAS) (info : TBRN) (e : Error)
    (calls : list Event) :
  get_dataset_client svc gas info (Some false) = (Raised e, calls) ->
  Forall (fun e => is_resolution_call e = true) calls.
Proof.
  intros Hc.
  destruct (get_dataset_client_trace gas info) as (rest & Ht & Hr & _).
  rewrite Hc in Ht. cbn in Ht. subst calls. constructor; done.
Qed.

(** The guards, one branch at a time. *)
Lemma guards_rejected (client : DatasetClient) (info : TBRN) (tbrn : string)
    (is_recursive : bool) (r : Rejection) :
  rm_guard info is_recursive = Some r ->
  rm_guards_and_delete svc TBRN_str client info tbrn is_recursive
  = (Exited 1, [Echo (diagnostic r tbrn (TBRN_str info))]).
Proof.
  unfold rm_guard, rm_guards_and_delete, when, echo, emit, sys_exit.
  destruct (bool_decide (type info ∈ [SEGMENT; NORMAL_FILE])); cbn;
    [|intros [= <-]; reflexivity].
  destruct (is_draft info); cbn; [|intros [= <-]; reflexivity].
  destruct (bool_decide (type info = SEGMENT)); cbn.
  - destruct is_recursive; cbn; [discriminate|intros [= <-]; reflexivity].
  - destruct (endswith (remote_path info) "/" && negb is_recursive); cbn;
      [intros [= <-]; reflexivity|discriminate].
Qed.

Lemma guards_segment (client : DatasetClient) (info : TBRN) (tbrn : string)
    (is_recursive : bool) :
  rm_guard info is_recursive = None ->
  type info = SEGMENT ->
  rm_guards_and_delete svc TBRN_str client info tbrn is_recursive
  = delete_segment svc client (segment_name info).
Proof.
  unfold rm_guard, rm_guards_and_delete, when, echo, emit, sys_exit.
  intros Hg Ht. rewrite Ht in Hg |- *.
  rewrite !bool_decide_eq_true_2 in Hg |- * by (done || constructor).
  cbn in Hg |- *.
  destruct (is_draft info); cbn in Hg |- *; [|discriminate].
  destruct is_recursive; cbn in Hg |- *; [|discriminate].
  unfold delete_segment, emit.
  destruct (accepts_delete_segment svc client (segment_name info)); reflexivity.
Qed.

Lemma guards_file (client : DatasetClient) (info : TBRN) (tbrn : string)
    (is_recursive : bool) :
  rm_guard info is_recursive = None ->
  type info ≠ SEGMENT ->
  rm_guards_and_delete svc TBRN_str client info tbrn is_recursive
  = (segment ← get_segment svc client (segment_name info);
     paths ← list_data_paths svc segment;
     let data := filter_data paths (remote_path info) is_recursive in
     when (is_empty data)
       (echo (no_such_diagnostic is_recursive tbrn);; sys_exit 1);;
     delete_data svc segment data).
Proof.
  unfold rm_guard, rm_guards_and_delete.
  intros Hg Ht.
  rewrite (bool_decide_eq_false_2 (type info = SEGMENT)) in Hg |- * by done.
  destruct (bool_decide (type info ∈ [SEGMENT; NORMAL_FILE]));
    [|discriminate].
  destruct (is_draft info); [|discriminate].
  destruct (endswith (remote_path info) "/" && negb is_recursive);
    [discriminate|].
  cbn [negb when]. rewrite !ret_bind. reflexivity.
Qed.

(** Once the first three steps went through, the command is its guards. *)
Lemma implement_rm_resolved (obj : Obj) (tbrn : string) (is_recursive : bool)
    (info : TBRN) (client : DatasetClient) (calls : list Event) :
  Resolved host svc TBRN_init obj tbrn info client calls ->
  _implement_rm host svc TBRN_init TBRN_str obj tbrn is_recursive
  = (let '(o, t) :=
       rm_guards_and_delete svc TBRN_str client info tbrn is_recursive in
     (o, calls ++ t)).
Proof.
  intros (gas & Hg & Hp & Hc). unfold _implement_rm.
  rewrite Hg, bind_returned_nil, Hp, ret_bind, Hc, bind_returned.
  reflexivity.
Qed.

Lemma guards_run (client : DatasetClient) (info : TBRN) (tbrn : string)
    (is_recursive : bool) :
  GuardsRun svc TBRN_str client info tbrn is_recursive
    (rm_guards_and_delete svc TBRN_str client info tbrn is_recursive).
Proof.
  destruct (rm_guard info is_recursive) as [r|] eqn:Hg.
  - rewrite (guards_rejected _ _ _ _ _ Hg). by constructor.
  - destruct (decide (type info = SEGMENT)) as [Ht|Ht].
    + rewrite guards_segment by done.
      unfold delete_segment, emit.
      pose proof (run_delete_segment svc TBRN_str client info tbrn
                    is_recursive Hg Ht) as H.
      destruct (accepts_delete_segment svc client (segment_name info));
        exact H.
    + rewrite guards_file by done.
      unfold get_segment, list_data_paths, emit.
      destruct (segment_paths svc client (segment_name info)) as [paths|]
        eqn:Hp.
      * cbn. rewrite Hp. cbn. unfold is_empty.
        destruct (decide (filter_data paths (remote_path info) is_recursive
                          = ∅)) as [He|He].
        -- rewrite bool_decide_eq_true_2 by done. cbn.
           exact (run_no_target svc TBRN_str client info tbrn is_recursive
                    paths Hg Ht Hp He).
        -- rewrite bool_decide_eq_false_2 by done. cbn.
           pose proof (run_delete_data svc TBRN_str client info tbrn
                         is_recursive paths Hg Ht Hp He) as H.
           cbn in H. unfold delete_data, emit.
           destruct (accepts_delete_data svc _ _); exact H.
      * cbn. by constructor.
Qed.

(** Every invocation runs in one of the five ways of [RmRun]. *)
Lemma implement_rm_run (obj : Obj) (tbrn : string) (is_recursive : bool) :
  RmRun host svc TBRN_init TBRN_str obj tbrn is_recursive
    (_implement_rm host svc TBRN_init TBRN_str obj tbrn is_recursive).
Proof.
  destruct (get_gas_cases (access_key obj) (url obj) (profile_name obj))
    as [(gas & Hg)|[(msg & Hg)|(e & Hg)]].
  - destruct (TBRN_init tbrn) as [info|] eqn:Hp.
    + destruct (get_dataset_client svc gas info (Some false))
        as [[client| c |e] calls] eqn:Hc.
      * assert (Resolved host svc TBRN_init obj tbrn info client calls) as Hr
          by (exists gas; done).
        rewrite (implement_rm_resolved _ _ is_recursive _ _ _ Hr).
        pose proof (guards_run client info tbrn is_recursive) as Hrun.
        destruct (rm_guards_and_delete _ _ _ _ _ _) as [o t].
        by econstructor.
      * destruct (get_dataset_client_trace gas info) as (_ & _ & _ & Hn).
        rewrite Hc in Hn. by destruct (Hn c).
      * unfold _implement_rm.
        rewrite Hg, bind_returned_nil, Hp, ret_bind, Hc, bind_raised.
        by econstructor.
    + unfold _implement_rm. rewrite Hg, bind_returned_nil, Hp.
      by econstructor.
  - unfold _implement_rm. rewrite Hg. by constructor.
  - unfold _implement_rm. rewrite Hg. by constructor.
Qed.

End CommandFacts.

(** ** The guards against the authorizer of the design *)

Lemma guard_fusion_file (info : TBRN) (is_recursive : bool) :
  type info = FUSION_FILE ->
  rm_guard info is_recursive = Some InvalidTargetKind.
Proof. unfold rm_guard. intros ->. reflexivity. Qed.

(** Away from fusion files the guards decide as the authorizer does. *)
Lemma guard_refines_authorize (info : TBRN) (is_recursive : bool) :
  type info ≠ FUSION_FILE ->
  rm_guard info is_recursive
  = match authorize info is_recursive with
    | Rejected r => Some r
    | Authorized _ => None
    end.
Proof.
  unfold rm_guard, authorize. destruct info as [k d s p v]; cbn.
  intros Hk.
  destruct k; try done; cbn; unfold is_draft; cbn;
    destruct v, is_recursive; cbn; try reflexivity;
    destruct (endswith p "/"); reflexivity.
Qed.

(** What the authorizer rejects the guards stop too. *)
Lemma authorize_rejected_guard (info : TBRN) (is_recursive : bool)
    (r : Rejection) :
  authorize info is_recursive = Rejected r ->
  ∃ r', rm_guard info is_recursive = Some r'
        ∧ (type info ≠ FUSION_FILE -> r' = r).
Proof.
  intros Ha. destruct (decide (type info = FUSION_FILE)) as [Hk|Hk].
  - exists InvalidTargetKind. split; [by apply guard_fusion_file|done].
  - exists r. split; [|done].
    rewrite guard_refines_authorize by done. by rewrite Ha.
Qed.

Lemma guard_invalid_kind (info : TBRN) (is_recursive : bool) :
  rm_guard info is_recursive = Some InvalidTargetKind
  ↔ type info ≠ SEGMENT ∧ type info ≠ NORMAL_FILE.
Proof.
  unfold rm_guard. destruct info as [k d s p v]; cbn.
  destruct k; cbn; unfold is_draft; cbn;
    try (split; [done|reflexivity]);
    (split; [|intros [? ?]; done]);
    destruct v, is_recursive; cbn; try discriminate;
    destruct (endswith p "/"); discriminate.
Qed.

(** Only the first diagnostic opens with a quotation mark. *)
Lemma diagnostic_invalid_kind (r : Rejection) (tbrn canonical : string) :
  diagnostic r tbrn canonical = diagnostic InvalidTargetKind tbrn canonical ->
  r = InvalidTargetKind.
Proof.
  destruct r; [done|..]; intros H;
    apply (f_equal (String.get 0)) in H; vm_compute in H; discriminate.
Qed.

(** [String.prefix] is the literal prefix relation. *)
Lemma startswith_literal (s p : string) :
  startswith s p = true ↔ ∃ rest, s = p +:+ rest.
Proof.
  unfold startswith. revert s.
  induction p as [|a p IH]; intros s.
  - split; [intros _; by exists s|intros _; by destruct s].
  - destruct s as [|b s].
    + change (String.prefix (String a p) EmptyString) with false.
      split; [done|intros [rest Hr]; discriminate Hr].
    + change (String.prefix (String a p) (String b s))
        with (if ascii_dec a b then String.prefix p s else false).
      destruct (ascii_dec a b) as [->|Hab].
      * rewrite IH. split; intros [rest Hr]; exists rest.
        -- by rewrite Hr.
        -- by injection Hr.
      * split; [done|intros [rest Hr]]. injection Hr as Hb _. done.
Qed.

Section Claims.

Variable host : Host.
Variable svc : Service.
Variable TBRN_init : string -> option TBRN.
Variable TBRN_str : TBRN -> string.

Local Abbreviation rm := (_implement_rm host svc TBRN_init TBRN_str).
Local Abbreviation resolved := (Resolved host svc TBRN_init).

(** C1, as amended.  A request the authorizer rejects never reaches a
    listing or a delete call: the only calls made to the dataset-service
    client are the dataset lookup and the version checkout of
    [get_dataset_client], which run before the guards.  The process ends with
    status 1, and once login and resolution went through the command prints
    the rejection diagnostic as its only line and exits through
    [sys.exit(1)]. *)
Theorem rejected_request_only_resolves (obj : Obj) (tbrn : string)
    (is_recursive : bool) (info : TBRN) (r : Rejection) :
  TBRN_init tbrn = Some info ->
  authorize info is_recursive = Rejected r ->
  (∀ e, e ∈ snd (rm obj tbrn is_recursive) ->
        is_client_call e = true -> is_resolution_call e = true)
  ∧ exit_status (fst (rm obj tbrn is_recursive)) = 1%Z
  ∧ (∀ client calls,
        resolved obj tbrn info client calls ->
        client_calls (snd (rm obj tbrn is_recursive)) = calls
        ∧ ∃ r', (type info ≠ FUSION_FILE -> r' = r)
                ∧ rm obj tbrn is_recursive
                  = (Exited 1,
                     calls ++ [Echo (diagnostic r' tbrn (TBRN_str info))])).
Proof.
  intros Hp Ha.
  destruct (authorize_rejected_guard _ _ _ Ha) as (r' & Hg & Hr').
  split; [|split].
  - pose proof (implement_rm_run host svc TBRN_init TBRN_str obj tbrn
                  is_recursive) as Hrun.
    destruct (rm obj tbrn is_recursive) as [o t]. cbn.
    inversion Hrun as [msg Hl|e Hl|gas Hl Hn|gas info' e calls Hl Hp' Hc
                      |info' client calls o' t' Hres Hgr]; subst.
    + intros ev ->%list_elem_of_singleton; discriminate.
    + intros ev []%elem_of_nil.
    + intros ev []%elem_of_nil.
    + destruct (get_dataset_client_trace svc gas info') as (rest & Ht & Hf & _).
      rewrite Hc in Ht. cbn in Ht. subst.
      intros ev [->|He]%elem_of_cons _; [done|].
      by apply (proj1 (Forall_forall _ _) Hf).
    + destruct Hres as (gas & Hl & Hp' & Hc).
      assert (info' = info) as -> by congruence.
      pose proof (resolved_calls host svc TBRN_init obj tbrn info client calls
                    (ex_intro _ gas (conj Hl (conj Hp' Hc)))) as Hf.
      inversion Hgr; subst; try congruence.
      intros ev [He|He]%elem_of_app Hcl.
      * by apply (proj1 (Forall_forall _ _) Hf).
      * apply list_elem_of_singleton in He. subst. discriminate.
  - pose proof (implement_rm_run host svc TBRN_init TBRN_str obj tbrn
                  is_recursive) as Hrun.
    destruct (rm obj tbrn is_recursive) as [o t]. cbn.
    inversion Hrun as [msg Hl|e Hl|gas Hl Hn|gas info' e calls Hl Hp' Hc
                      |info' client calls o' t' Hres Hgr]; subst;
      try reflexivity.
    destruct Hres as (gas & Hl & Hp' & Hc).
    assert (info' = info) as -> by congruence.
    inversion Hgr; subst; try congruence. reflexivity.
  - intros client calls Hres.
    rewrite (implement_rm_resolved _ _ _ _ _ _ _ _ _ _ Hres).
    rewrite (guards_rejected _ _ _ _ _ _ _ Hg). cbn. split.
    + destruct (resolution_calls_facts _ (resolved_calls _ _ _ _ _ _ _ _ Hres))
        as (_ & Hc & _).
      unfold client_calls in *. rewrite List.filter_app, Hc. cbn.
      by rewrite app_nil_r.
    + exists r'. done.
Qed.

(** C2.  The kind check comes first: once login and resolution went
    through, a locator whose kind is neither SEGMENT nor a file kind is
    rejected as an invalid target, whatever its version qualifier and
    whatever the recursive flag; the authorizer of the design decides the
    same. *)
Theorem invalid_kind_rejected_first (obj : Obj) (tbrn : string)
    (is_recursive : bool) (info : TBRN) (client : DatasetClient)
    (calls : list Event) :
  resolved obj tbrn info client calls ->
  type info ≠ SEGMENT ->
  is_file_kind (type info) = false ->
  authorize info is_recursive = Rejected InvalidTargetKind
  ∧ rm obj tbrn is_recursive
    = (Exited 1,
       calls ++ [Echo (quoted tbrn +:+ " is an invalid path to remove")]).
Proof.
  intros Hres Hs Hf. split.
  - unfold authorize. rewrite Hf.
    by rewrite (bool_decide_eq_false_2 (type info = SEGMENT)).
  - assert (rm_guard info is_recursive = Some InvalidTargetKind) as Hg.
    { apply guard_invalid_kind. split; [done|]. intros Hk.
      rewrite Hk in Hf. discriminate. }
    rewrite (implement_rm_resolved _ _ _ _ _ _ _ _ _ _ Hres).
    by rewrite (guards_rejected _ _ _ _ _ _ _ Hg).
Qed.

(** C3, as amended.  Once login and resolution went through, the command
    prints ["<locator>" is an invalid path to remove] if and only if the kind
    of the locator is neither SEGMENT nor NORMAL_FILE, and then that line is
    all it prints before it exits with status 1.  Segments and normal files
    pass this guard; FUSION_FILE locators are stopped by it. *)
Theorem invalid_kind_iff_not_segment_nor_normal_file (obj : Obj)
    (tbrn : string) (is_recursive : bool) (info : TBRN)
    (client : DatasetClient) (calls : list Event) :
  resolved obj tbrn info client calls ->
  (Echo (quoted tbrn +:+ " is an invalid path to remove")
     ∈ snd (rm obj tbrn is_recursive)
   ↔ type info ≠ SEGMENT ∧ type info ≠ NORMAL_FILE)
  ∧ (type info ≠ SEGMENT ∧ type info ≠ NORMAL_FILE ->
     rm obj tbrn is_recursive
     = (Exited 1,
        calls ++ [Echo (quoted tbrn +:+ " is an invalid path to remove")])).
Proof.
  intros Hres.
  assert (type info ≠ SEGMENT ∧ type info ≠ NORMAL_FILE ->
          rm obj tbrn is_recursive
          = (Exited 1,
             calls ++ [Echo (quoted tbrn +:+ " is an invalid path to remove")]))
    as Hif.
  { intros Hk. apply (guard_invalid_kind info is_recursive) in Hk.
    rewrite (implement_rm_resolved _ _ _ _ _ _ _ _ _ _ Hres).
    by rewrite (guards_rejected _ _ _ _ _ _ _ Hk). }
  split; [split|done].
  - rewrite (implement_rm_resolved _ _ _ _ _ _ _ _ _ _ Hres).
    pose proof (guards_run svc TBRN_str client info tbrn is_recursive) as Hrun.
    pose proof (resolved_calls _ _ _ _ _ _ _ _ Hres) as Hcalls.
    destruct (rm_guards_and_delete _ _ _ _ _ _) as [o t]. cbn.
    intros [He|He]%elem_of_app.
    { apply (proj1 (Forall_forall _ _) Hcalls) in He. discriminate. }
    inversion Hrun as [r Hg| | |paths|paths]; subst;
      repeat (apply elem_of_cons in He as [He|He]; try discriminate);
      try (by apply elem_of_nil in He).
    injection He as He. symmetry in He.
    apply (diagnostic_invalid_kind r tbrn (TBRN_str info)) in He. subst r.
    by apply (guard_invalid_kind info is_recursive).
  - intros Hk. rewrite (Hif Hk). cbn. apply elem_of_app. right.
    by apply list_elem_of_singleton.
Qed.

(** C4, as amended.  Once login and resolution went through, a SEGMENT or
    NORMAL_FILE locator that names no draft (no version at all, or a
    revision) is rejected whatever the recursive flag, with the line
    [To remove the data, "<locator>" must be in draft status, like
    "<locator>#1"] built from the canonical string form of the locator. *)
Theorem not_in_draft_rejected (obj : Obj) (tbrn : string)
    (is_recursive : bool) (info : TBRN) (client : DatasetClient)
    (calls : list Event) :
  resolved obj tbrn info client calls ->
  type info = SEGMENT ∨ type info = NORMAL_FILE ->
  version info = NoVersion ∨ (∃ r, version info = Revision r) ->
  rm obj tbrn is_recursive
  = (Exited 1,
     calls ++ [Echo ("To remove the data, " +:+ quoted (TBRN_str info)
                     +:+ " must be in draft status, like "
                     +:+ quoted (TBRN_str info +:+ "#1"))]).
Proof.
  intros Hres Hk Hv.
  assert (rm_guard info is_recursive = Some NotInDraft) as Hg.
  { unfold rm_guard, is_draft.
    destruct Hk as [-> | ->], Hv as [-> | [r ->]]; reflexivity. }
  rewrite (implement_rm_resolved _ _ _ _ _ _ _ _ _ _ Hres).
  by rewrite (guards_rejected _ _ _ _ _ _ _ Hg).
Qed.

(** C5.  For a SEGMENT locator that names a draft, once login and resolution
    went through: without the recursive flag the command prints
    [Please use -r option to remove the whole segment], exits with status 1
    and issues no delete; with the flag it issues exactly one delete call,
    the deletion of the segment the locator names, on the client that was
    checked out to that draft. *)
Theorem draft_segment_deletion (obj : Obj) (tbrn : string) (info : TBRN)
    (client : DatasetClient) (calls : list Event) (n : positive) :
  resolved obj tbrn info client calls ->
  type info = SEGMENT ->
  version info = Draft n ->
  rm obj tbrn false
  = (Exited 1,
     calls ++ [Echo "Please use -r option to remove the whole segment"])
  ∧ List.filter is_delete_call (snd (rm obj tbrn false)) = []
  ∧ snd (rm obj tbrn true)
    = calls ++ [CallDeleteSegment client (segment_name info)]
  ∧ List.filter is_delete_call (snd (rm obj tbrn true))
    = [CallDeleteSegment client (segment_name info)]
  ∧ client_status client = Draft n
  ∧ fst (rm obj tbrn true)
    = (if accepts_delete_segment svc client (segment_name info)
       then Returned tt else Raised RemoteError).
Proof.
  intros Hres Hk Hv.
  destruct (resolution_calls_facts _ (resolved_calls _ _ _ _ _ _ _ _ Hres))
    as (_ & _ & Hnd).
  assert (rm_guard info false = Some SegmentRequiresRecursive) as Hg0.
  { unfold rm_guard, is_draft. rewrite Hk, Hv. reflexivity. }
  assert (rm_guard info true = None) as Hg1.
  { unfold rm_guard, is_draft. rewrite Hk, Hv. reflexivity. }
  rewrite !(implement_rm_resolved _ _ _ _ _ _ _ _ _ _ Hres).
  rewrite (guards_rejected _ _ _ _ _ _ _ Hg0).
  rewrite (guards_segment _ _ _ _ _ _ Hg1 Hk).
  unfold delete_segment, emit.
  destruct Hres as (gas & _ & _ & Hc).
  rewrite <- Hv, (get_dataset_client_status _ _ _ _ _ Hc).
  destruct (accepts_delete_segment svc client (segment_name info)); cbn;
    rewrite !List.filter_app, Hnd; done.
Qed.

(** C6, as amended.  For a NORMAL_FILE locator that names a draft and whose
    remote path ends with a slash, once login and resolution went through:
    without the recursive flag the command prints
    [Please use -r option to remove recursively] and exits with status 1,
    having made no call besides those of dataset resolution; the authorizer
    of the design decides the same. *)
Theorem directory_requires_recursive (obj : Obj) (tbrn : string)
    (info : TBRN) (client : DatasetClient) (calls : list Event)
    (n : positive) :
  resolved obj tbrn info client calls ->
  type info = NORMAL_FILE ->
  version info = Draft n ->
  endswith (remote_path info) "/" = true ->
  authorize info false = Rejected DirectoryRequiresRecursive
  ∧ rm obj tbrn false
    = (Exited 1, calls ++ [Echo "Please use -r option to remove recursively"])
  ∧ client_calls (snd (rm obj tbrn false)) = calls
  ∧ Forall (fun e => is_resolution_call e = true) calls.
Proof.
  intros Hres Hk Hv Hp.
  pose proof (resolved_calls _ _ _ _ _ _ _ _ Hres) as Hcalls.
  destruct (resolution_calls_facts _ Hcalls) as (_ & Hcc & _).
  assert (rm_guard info false = Some DirectoryRequiresRecursive) as Hg.
  { unfold rm_guard, is_draft. rewrite Hk, Hv, Hp. reflexivity. }
  split; [|split; [|split; [|done]]].
  - unfold authorize, is_draft. rewrite Hk, Hv, Hp. reflexivity.
  - rewrite (implement_rm_resolved _ _ _ _ _ _ _ _ _ _ Hres).
    by rewrite (guards_rejected _ _ _ _ _ _ _ Hg).
  - rewrite (implement_rm_resolved _ _ _ _ _ _ _ _ _ _ Hres).
    rewrite (guards_rejected _ _ _ _ _ _ _ Hg). cbn.
    unfold client_calls in *. rewrite List.filter_app, Hcc. cbn.
    by rewrite app_nil_r.
Qed.

(** C8.  A batched delete is only ever called with a non-empty set.  When
    the guards let a file-level request through and the path filter resolves
    it to the empty set, the command makes no delete call at all: after the
    segment lookup and the listing it prints [No such file or directory
    "<locator>" ] (recursive) or [No such file "<locator>" ] (not recursive)
    and exits with status 1.  When the set is not empty, the one delete call
    carries exactly that set. *)
Theorem empty_resolved_set_is_never_deleted (obj : Obj) (tbrn : string)
    (is_recursive : bool) :
  (∀ segment paths,
      CallDeleteData segment paths ∈ snd (rm obj tbrn is_recursive) ->
      paths ≠ ∅)
  ∧ (∀ info client calls paths,
        resolved obj tbrn info client calls ->
        rm_guard info is_recursive = None ->
        type info ≠ SEGMENT ->
        segment_paths svc client (segment_name info) = Some paths ->
        let segment := {| segment_dataset := client;
                          segment_client_name := segment_name info |} in
        let data := filter_data paths (remote_path info) is_recursive in
        (data = ∅ ->
         rm obj tbrn is_recursive
         = (Exited 1,
            calls ++ [CallGetSegment client (segment_name info);
                      CallListDataPaths segment;
                      Echo ("No such "
                            +:+ (if is_recursive then "file or directory"
                                 else "file")
                            +:+ " " +:+ quoted tbrn +:+ " ")])
         ∧ List.filter is_delete_call (snd (rm obj tbrn is_recursive)) = [])
        ∧ (data ≠ ∅ ->
           List.filter is_delete_call (snd (rm obj tbrn is_recursive))
           = [CallDeleteData segment data])).
Proof.
  split.
  - pose proof (implement_rm_run host svc TBRN_init TBRN_str obj tbrn
                  is_recursive) as Hrun.
    destruct (rm obj tbrn is_recursive) as [o t]. cbn.
    intros segment paths He.
    inversion Hrun as [msg Hl|e Hl|gas Hl Hn|gas info' e calls Hl Hp' Hc
                      |info' client calls o' t' Hres Hgr]; subst.
    + by apply list_elem_of_singleton in He.
    + by apply elem_of_nil in He.
    + by apply elem_of_nil in He.
    + apply (proj1 (Forall_forall _ _) (unresolved_calls _ _ _ _ _ Hc)) in He.
      discriminate.
    + apply elem_of_app in He as [He|He].
      { apply (proj1 (Forall_forall _ _) (resolved_calls _ _ _ _ _ _ _ _ Hres))
          in He. discriminate. }
      inversion Hgr; subst;
        repeat (apply elem_of_cons in He as [He|He]; try discriminate);
        try (by apply elem_of_nil in He).
      injection He as _ ->. done.
  - intros info client calls paths Hres Hg Hk Hp segment data.
    destruct (resolution_calls_facts _ (resolved_calls _ _ _ _ _ _ _ _ Hres))
      as (_ & _ & Hnd).
    rewrite (implement_rm_resolved _ _ _ _ _ _ _ _ _ _ Hres).
    pose proof (guards_run svc TBRN_str client info tbrn is_recursive) as Hrun.
    destruct (rm_guards_and_delete _ _ _ _ _ _) as [o t]. cbn.
    inversion Hrun as [| | |paths' _ _ Hp' He|paths' _ _ Hp' He]; subst;
      try congruence;
      assert (paths' = paths) as -> by congruence;
      (split; intros Hd; [|try done]); try done.
    + split; [reflexivity|]. rewrite List.filter_app, Hnd. reflexivity.
    + rewrite List.filter_app, Hnd. reflexivity.
Qed.

(** C9, as amended.  Every rejection and every empty result ends, once login
    and resolution went through, with exactly one diagnostic on the error
    stream and [sys.exit(1)]; whenever the command leaves through [sys.exit]
    the code is 1 and exactly one diagnostic was printed; status 0 occurs
    only after a delete call was issued as the last action, with nothing
    printed.  A locator the parser refuses is not reported by the command:
    the parse error escapes from it uncaught (status 1) before anything is
    printed or any call is made. *)
Theorem exit_status_and_diagnostics (obj : Obj) (tbrn : string)
    (is_recursive : bool) :
  (∀ info client calls r,
      resolved obj tbrn info client calls ->
      rm_guard info is_recursive = Some r ->
      fst (rm obj tbrn is_recursive) = Exited 1
      ∧ echoes (snd (rm obj tbrn is_recursive))
        = [diagnostic r tbrn (TBRN_str info)])
  ∧ (∀ info client calls paths,
        resolved obj tbrn info client calls ->
        rm_guard info is_recursive = None ->
        type info ≠ SEGMENT ->
        segment_paths svc client (segment_name info) = Some paths ->
        filter_data paths (remote_path info) is_recursive = ∅ ->
        fst (rm obj tbrn is_recursive) = Exited 1
        ∧ echoes (snd (rm obj tbrn is_recursive))
          = [no_such_diagnostic is_recursive tbrn])
  ∧ (∀ c, fst (rm obj tbrn is_recursive) = Exited c ->
          c = 1%Z ∧ ∃ msg, echoes (snd (rm obj tbrn is_recursive)) = [msg])
  ∧ (exit_status (fst (rm obj tbrn is_recursive)) = 0%Z ->
     echoes (snd (rm obj tbrn is_recursive)) = []
     ∧ ∃ t e, snd (rm obj tbrn is_recursive) = t ++ [e]
              ∧ is_delete_call e = true)
  ∧ (∀ gas,
        get_gas host (access_key obj) (url obj) (profile_name obj)
        = (Returned gas, []) ->
        TBRN_init tbrn = None ->
        rm obj tbrn is_recursive = (Raised MalformedLocator, [])
        ∧ exit_status (fst (rm obj tbrn is_recursive)) = 1%Z
        ∧ echoes (snd (rm obj tbrn is_recursive)) = []).
Proof.
  split; [|split; [|split; [|split]]].
  - intros info client calls r Hres Hg.
    destruct (resolution_calls_facts _ (resolved_calls _ _ _ _ _ _ _ _ Hres))
      as (Hne & _ & _).
    rewrite (implement_rm_resolved _ _ _ _ _ _ _ _ _ _ Hres).
    rewrite (guards_rejected _ _ _ _ _ _ _ Hg). cbn.
    unfold echoes in *. by rewrite omap_app, Hne.
  - intros info client calls paths Hres Hg Hk Hp Hd.
    destruct (resolution_calls_facts _ (resolved_calls _ _ _ _ _ _ _ _ Hres))
      as (Hne & _ & _).
    rewrite (implement_rm_resolved _ _ _ _ _ _ _ _ _ _ Hres).
    pose proof (guards_run svc TBRN_str client info tbrn is_recursive) as Hrun.
    destruct (rm_guards_and_delete _ _ _ _ _ _) as [o t]. cbn.
    inversion Hrun; subst; try congruence.
    unfold echoes in *. by rewrite omap_app, Hne.
  - pose proof (implement_rm_run host svc TBRN_init TBRN_str obj tbrn
                  is_recursive) as Hrun.
    destruct (rm obj tbrn is_recursive) as [o t]. cbn.
    intros c ->.
    inversion Hrun as [msg Hl| | | |info client calls o' t' Hres Hgr]; subst.
    + split; [done|]. by exists msg.
    + destruct (resolution_calls_facts _
                  (resolved_calls _ _ _ _ _ _ _ _ Hres)) as (Hne & _ & _).
      unfold echoes in *.
      inversion Hgr; subst;
        try match goal with
            | H : (if ?b then _ else _) = Exited _ |- _ =>
                destruct b; discriminate H
            end;
        (split; [done|]); rewrite omap_app, Hne; cbn; by eexists.
  - pose proof (implement_rm_run host svc TBRN_init TBRN_str obj tbrn
                  is_recursive) as Hrun.
    destruct (rm obj tbrn is_recursive) as [o t]. cbn.
    intros Hz.
    inversion Hrun as [msg Hl| | | |info client calls o' t' Hres Hgr]; subst;
      try discriminate Hz.
    destruct (resolution_calls_facts _
                (resolved_calls _ _ _ _ _ _ _ _ Hres)) as (Hne & _ & _).
    unfold echoes in *.
    inversion Hgr; subst; try discriminate Hz;
      (split; [rewrite omap_app, Hne; reflexivity|]).
    + by exists calls, (CallDeleteSegment client (segment_name info)).
    + eexists (calls ++ [_; _]), _. rewrite <- app_assoc. cbn. done.
  - intros gas Hl Hn. unfold _implement_rm.
    rewrite Hl, bind_returned_nil, Hn. done.
Qed.

(** C10.  Every dataset lookup the command makes carries [is_fusion=False].
    For a locator that names a fusion dataset, once login and parsing went
    through, the lookup is the only call made: the invocation fails in it
    with a dataset type error before any guard runs and before anything is
    printed.  No delete call is ever issued for a locator that names a fusion
    dataset or that is of FUSION_FILE kind. *)
Theorem fusion_dataset_fails_at_resolution (obj : Obj) (tbrn : string)
    (is_recursive : bool) :
  (∀ name flag,
      CallGetDataset name flag ∈ snd (rm obj tbrn is_recursive) ->
      flag = Some false)
  ∧ (∀ gas info,
        get_gas host (access_key obj) (url obj) (profile_name obj)
        = (Returned gas, []) ->
        TBRN_init tbrn = Some info ->
        dataset_shape svc (dataset_name info) = Some true ->
        rm obj tbrn is_recursive
        = (Raised DatasetTypeError,
           [CallGetDataset (dataset_name info) (Some false)]))
  ∧ (∀ info,
        TBRN_init tbrn = Some info ->
        dataset_shape svc (dataset_name info) = Some true
        ∨ type info = FUSION_FILE ->
        List.filter is_delete_call (snd (rm obj tbrn is_recursive)) = []).
Proof.
  split; [|split].
  - pose proof (implement_rm_run host svc TBRN_init TBRN_str obj tbrn
                  is_recursive) as Hrun.
    destruct (rm obj tbrn is_recursive) as [o t]. cbn.
    intros name flag He.
    inversion Hrun as [msg Hl|e Hl|gas Hl Hn|gas info' e calls Hl Hp' Hc
                      |info' client calls o' t' Hres Hgr]; subst.
    + by apply list_elem_of_singleton in He.
    + by apply elem_of_nil in He.
    + by apply elem_of_nil in He.
    + apply (get_dataset_client_lookup_flag svc gas info' name). by rewrite Hc.
    + apply elem_of_app in He as [He|He].
      { destruct Hres as (gas & _ & _ & Hc).
        apply (get_dataset_client_lookup_flag svc gas info' name). by rewrite Hc. }
      inversion Hgr; subst;
        repeat (apply elem_of_cons in He as [He|He]; try discriminate);
        by apply elem_of_nil in He.
  - intros gas info Hl Hp Hs. unfold _implement_rm.
    rewrite Hl, bind_returned_nil, Hp, ret_bind.
    by rewrite (get_dataset_client_fusion svc gas info Hs).
  - intros info Hp Hf.
    pose proof (implement_rm_run host svc TBRN_init TBRN_str obj tbrn
                  is_recursive) as Hrun.
    destruct (rm obj tbrn is_recursive) as [o t]. cbn.
    inversion Hrun as [msg Hl|e Hl|gas Hl Hn|gas info' e calls Hl Hp' Hc
                      |info' client calls o' t' Hres Hgr]; subst;
      try reflexivity.
    + by destruct (resolution_calls_facts _ (unresolved_calls _ _ _ _ _ Hc))
        as (_ & _ & ->).
    + destruct (resolution_calls_facts _
                  (resolved_calls _ _ _ _ _ _ _ _ Hres)) as (_ & _ & Hnd).
      rewrite List.filter_app, Hnd. cbn.
      destruct Hres as (gas & Hl & Hp' & Hc).
      assert (info' = info) as -> by congruence.
      destruct Hf as [Hs|Hk].
      * rewrite (get_dataset_client_fusion svc gas info Hs) in Hc.
        discriminate.
      * pose proof (guard_fusion_file info is_recursive Hk) as Hg.
        inversion Hgr; subst; first [reflexivity|congruence].
Qed.

End Claims.

(** C7.  The path filter is a function of the listing, the requested path
    and the recursive flag alone.  Without the flag it yields the requested
    path alone when the listing has it verbatim and nothing otherwise; with
    the flag it yields the listed paths that extend the requested path as a
    literal prefix, where [*] and [.] stand for themselves. *)
Theorem filter_data_resolves :
  (∀ existing requested,
      filter_data existing requested false
      = if bool_decide (requested ∈ existing) then {[ requested ]} else ∅)
  ∧ (∀ existing requested p,
        p ∈ filter_data existing requested false
        ↔ p = requested ∧ requested ∈ existing)
  ∧ (∀ existing requested p,
        p ∈ filter_data existing requested true
        ↔ p ∈ existing ∧ ∃ rest, p = requested +:+ rest)
  ∧ filter_data ["a/1.jpg"; "a/2.jpg"; "b/1.jpg"] "a/" true
    = {[ "a/1.jpg"; "a/2.jpg" ]}
  ∧ filter_data ["a/1.jpg"; "a/2.jpg"; "b/1.jpg"] "a/1.jpg" false
    = {[ "a/1.jpg" ]}
  ∧ filter_data ["a/1.jpg"; "a/2.jpg"; "b/1.jpg"] "a/3.jpg" false = ∅
  ∧ filter_data ["a1"; "a*1"; "a.1"] "a*" true = {[ "a*1" ]}
  ∧ filter_data ["a1"; "a*1"; "a.1"] "a." true = {[ "a.1" ]}.
Proof.
  split; [reflexivity|]. split; [|split].
  - intros existing requested p. unfold filter_data.
    destruct (decide (requested ∈ existing)) as [Hin|Hin].
    + rewrite bool_decide_eq_true_2, elem_of_singleton by done.
      split; [intros ->; done|intros [-> _]; done].
    + rewrite bool_decide_eq_false_2, elem_of_empty by done.
      split; [done|intros [_ ?]; done].
  - intros existing requested p. unfold filter_data.
    rewrite elem_of_list_to_set, list_elem_of_In, List.filter_In,
      <- list_elem_of_In, startswith_literal. done.
  - repeat split; by vm_compute.
Qed.

(** ** The claims on the sample installation *)

(** C1 fails as stated: a dataset-root locator with a draft qualifier is
    rejected by the authorizer, yet the command has looked the dataset up
    and checked the draft out before it prints the rejection. *)
Lemma rejected_request_calls_client :
  Demo.TBRN_init "tb:ds1#1" = Some Demo.dataset_draft
  ∧ authorize Demo.dataset_draft true = Rejected InvalidTargetKind
  ∧ Demo.rm "tb:ds1#1" true
    = (Exited 1,
       [CallGetDataset "ds1" (Some false);
        CallCheckout (Demo.ds1_client NoVersion) None (Some 1%positive);
        Echo (quoted "tb:ds1#1" +:+ " is an invalid path to remove")])
  ∧ client_calls (snd (Demo.rm "tb:ds1#1" true))
    = [CallGetDataset "ds1" (Some false);
       CallCheckout (Demo.ds1_client NoVersion) None (Some 1%positive)]
  ∧ ¬ (∀ host svc TBRN_init TBRN_str obj tbrn is_recursive info r,
          TBRN_init tbrn = Some info ->
          authorize info is_recursive = Rejected r ->
          client_calls
            (snd (_implement_rm host svc TBRN_init TBRN_str obj tbrn
                    is_recursive)) = []).
Proof.
  repeat split; try reflexivity.
  intros H.
  specialize (H Demo.host Demo.svc Demo.TBRN_init Demo.TBRN_str Demo.obj
                "tb:ds1#1" true Demo.dataset_draft InvalidTargetKind
                eq_refl eq_refl).
  discriminate H.
Qed.

Lemma rejected_request_only_resolves_witness :
  Demo.TBRN_init "tb:ds1:seg1#v2" = Some Demo.segment_revision
  ∧ authorize Demo.segment_revision true = Rejected NotInDraft
  ∧ exit_status (fst (Demo.rm "tb:ds1:seg1#v2" true)) = 1%Z
  ∧ client_calls (snd (Demo.rm "tb:ds1:seg1#v2" true)) = Demo.revision_calls.
Proof.
  split; [reflexivity|]. split; [reflexivity|].
  destruct (rejected_request_only_resolves Demo.host Demo.svc Demo.TBRN_init
              Demo.TBRN_str Demo.obj "tb:ds1:seg1#v2" true
              Demo.segment_revision NotInDraft eq_refl eq_refl)
    as (_ & Hstatus & Hres).
  split; [exact Hstatus|].
  destruct (Hres (Demo.ds1_client (Revision "v2")) Demo.revision_calls)
    as (Hcalls & _); [demo_resolved|exact Hcalls].
Defined.

Lemma invalid_kind_rejected_first_witness :
  Resolved Demo.host Demo.svc Demo.TBRN_init Demo.obj "tb:ds1#1"
    Demo.dataset_draft (Demo.ds1_client (Draft 1)) Demo.draft_calls
  ∧ type Demo.dataset_draft ≠ SEGMENT
  ∧ is_file_kind (type Demo.dataset_draft) = false
  ∧ authorize Demo.dataset_draft true = Rejected InvalidTargetKind
  ∧ Demo.rm "tb:ds1#1" true
    = (Exited 1,
       Demo.draft_calls
       ++ [Echo (quoted "tb:ds1#1" +:+ " is an invalid path to remove")]).
Proof.
  split; [demo_resolved|]. split; [discriminate|]. split; [reflexivity|].
  apply (invalid_kind_rejected_first Demo.host Demo.svc Demo.TBRN_init
           Demo.TBRN_str Demo.obj "tb:ds1#1" true Demo.dataset_draft
           (Demo.ds1_client (Draft 1)) Demo.draft_calls);
    [demo_resolved|discriminate|reflexivity].
Defined.

(** C3 fails as stated: a FUSION_FILE locator is of a file kind, and the
    first guard stops it as an invalid path. *)
Lemma fusion_file_is_invalid_kind :
  Demo.TBRN_init "tb:ds1:seg1:cam/a/#1" = Some Demo.fusion_directory_draft
  ∧ type Demo.fusion_directory_draft = FUSION_FILE
  ∧ is_file_kind (type Demo.fusion_directory_draft) = true
  ∧ Demo.rm "tb:ds1:seg1:cam/a/#1" true
    = (Exited 1,
       Demo.draft_calls
       ++ [Echo (quoted "tb:ds1:seg1:cam/a/#1"
                 +:+ " is an invalid path to remove")])
  ∧ ¬ (∀ host svc TBRN_init TBRN_str obj tbrn is_recursive info client calls,
          Resolved host svc TBRN_init obj tbrn info client calls ->
          (Echo (quoted tbrn +:+ " is an invalid path to remove")
             ∈ snd (_implement_rm host svc TBRN_init TBRN_str obj tbrn
                      is_recursive)
           ↔ type info ≠ SEGMENT ∧ is_file_kind (type info) = false)).
Proof.
  repeat split; try reflexivity.
  intros H.
  destruct (H Demo.host Demo.svc Demo.TBRN_init Demo.TBRN_str Demo.obj
              "tb:ds1:seg1:cam/a/#1" true Demo.fusion_directory_draft
              (Demo.ds1_client (Draft 1)) Demo.draft_calls)
    as [Hk _]; [demo_resolved|].
  destruct Hk as [_ Hk]; [|discriminate Hk].
  vm_compute. do 2 apply list_elem_of_further. apply list_elem_of_here.
Qed.

Lemma invalid_kind_iff_not_segment_nor_normal_file_witness :
  Resolved Demo.host Demo.svc Demo.TBRN_init Demo.obj "tb:ds1:seg1:cam/a/#1"
    Demo.fusion_directory_draft (Demo.ds1_client (Draft 1)) Demo.draft_calls
  ∧ (Echo (quoted "tb:ds1:seg1:cam/a/#1" +:+ " is an invalid path to remove")
       ∈ snd (Demo.rm "tb:ds1:seg1:cam/a/#1" true)
     ↔ type Demo.fusion_directory_draft ≠ SEGMENT
       ∧ type Demo.fusion_directory_draft ≠ NORMAL_FILE).
Proof.
  split; [demo_resolved|].
  apply (invalid_kind_iff_not_segment_nor_normal_file Demo.host Demo.svc
           Demo.TBRN_init Demo.TBRN_str Demo.obj "tb:ds1:seg1:cam/a/#1" true
           Demo.fusion_directory_draft (Demo.ds1_client (Draft 1))
           Demo.draft_calls).
  demo_resolved.
Defined.

(** C4 fails as stated: a FUSION_FILE locator without a version is of a file
    kind and names no draft, but the command reports an invalid path, not a
    missing draft. *)
Lemma fusion_file_without_draft_is_invalid_kind :
  Demo.TBRN_init "tb:ds1:seg1:cam/a/1.jpg" = Some Demo.fusion_file_unversioned
  ∧ is_file_kind (type Demo.fusion_file_unversioned) = true
  ∧ version Demo.fusion_file_unversioned = NoVersion
  ∧ authorize Demo.fusion_file_unversioned false = Rejected NotInDraft
  ∧ Demo.rm "tb:ds1:seg1:cam/a/1.jpg" false
    = (Exited 1,
       Demo.lookup_calls
       ++ [Echo (quoted "tb:ds1:seg1:cam/a/1.jpg"
                 +:+ " is an invalid path to remove")])
  ∧ ¬ (∀ host svc TBRN_init TBRN_str obj tbrn is_recursive info client calls,
          Resolved host svc TBRN_init obj tbrn info client calls ->
          type info = SEGMENT ∨ is_file_kind (type info) = true ->
          version info = NoVersion ∨ (∃ r, version info = Revision r) ->
          _implement_rm host svc TBRN_init TBRN_str obj tbrn is_recursive
          = (Exited 1,
             calls ++ [Echo (diagnostic NotInDraft tbrn (TBRN_str info))])).
Proof.
  repeat split; try reflexivity.
  intros H.
  specialize (H Demo.host Demo.svc Demo.TBRN_init Demo.TBRN_str Demo.obj
                "tb:ds1:seg1:cam/a/1.jpg" false Demo.fusion_file_unversioned
                (Demo.ds1_client NoVersion) Demo.lookup_calls).
  discriminate H; [demo_resolved|right; reflexivity|left; reflexivity].
Qed.

Lemma not_in_draft_rejected_witness :
  Resolved Demo.host Demo.svc Demo.TBRN_init Demo.obj "tb:ds1:seg1/a/1.jpg"
    Demo.file_unversioned (Demo.ds1_client NoVersion) Demo.lookup_calls
  ∧ Demo.rm "tb:ds1:seg1/a/1.jpg" true
    = (Exited 1,
       Demo.lookup_calls
       ++ [Echo ("To remove the data, " +:+ quoted "tb:ds1:seg1/a/1.jpg"
                 +:+ " must be in draft status, like "
                 +:+ quoted "tb:ds1:seg1/a/1.jpg#1")]).
Proof.
  split; [demo_resolved|].
  apply (not_in_draft_rejected Demo.host Demo.svc Demo.TBRN_init
           Demo.TBRN_str Demo.obj "tb:ds1:seg1/a/1.jpg" true
           Demo.file_unversioned (Demo.ds1_client NoVersion)
           Demo.lookup_calls);
    [demo_resolved|right; reflexivity|left; reflexivity].
Defined.

Lemma draft_segment_deletion_witness :
  Resolved Demo.host Demo.svc Demo.TBRN_init Demo.obj "tb:ds1:seg1#1"
    Demo.segment_draft (Demo.ds1_client (Draft 1)) Demo.draft_calls
  ∧ Demo.rm "tb:ds1:seg1#1" false
    = (Exited 1,
       Demo.draft_calls
       ++ [Echo "Please use -r option to remove the whole segment"])
  ∧ snd (Demo.rm "tb:ds1:seg1#1" true)
    = Demo.draft_calls
      ++ [CallDeleteSegment (Demo.ds1_client (Draft 1)) "seg1"].
Proof.
  split; [demo_resolved|].
  destruct (draft_segment_deletion Demo.host Demo.svc Demo.TBRN_init
              Demo.TBRN_str Demo.obj "tb:ds1:seg1#1" Demo.segment_draft
              (Demo.ds1_client (Draft 1)) Demo.draft_calls 1%positive)
    as (H0 & _ & H1 & _); [demo_resolved|reflexivity|reflexivity|].
  split; [exact H0|exact H1].
Defined.

(** C6 fails as stated: a FUSION_FILE locator that names a draft and a
    directory is of a file kind, but without the recursive flag the command
    reports an invalid path, not the missing flag. *)
Lemma fusion_directory_is_invalid_kind :
  Demo.TBRN_init "tb:ds1:seg1:cam/a/#1" = Some Demo.fusion_directory_draft
  ∧ is_file_kind (type Demo.fusion_directory_draft) = true
  ∧ is_draft Demo.fusion_directory_draft = true
  ∧ endswith (remote_path Demo.fusion_directory_draft) "/" = true
  ∧ authorize Demo.fusion_directory_draft false
    = Rejected DirectoryRequiresRecursive
  ∧ Demo.rm "tb:ds1:seg1:cam/a/#1" false
    = (Exited 1,
       Demo.draft_calls
       ++ [Echo (quoted "tb:ds1:seg1:cam/a/#1"
                 +:+ " is an invalid path to remove")])
  ∧ ¬ (∀ host svc TBRN_init TBRN_str obj tbrn info client calls,
          Resolved host svc TBRN_init obj tbrn info client calls ->
          is_file_kind (type info) = true ->
          is_draft info = true ->
          endswith (remote_path info) "/" = true ->
          _implement_rm host svc TBRN_init TBRN_str obj tbrn false
          = (Exited 1,
             calls ++ [Echo "Please use -r option to remove recursively"])).
Proof.
  repeat split; try reflexivity.
  intros H.
  specialize (H Demo.host Demo.svc Demo.TBRN_init Demo.TBRN_str Demo.obj
                "tb:ds1:seg1:cam/a/#1" Demo.fusion_directory_draft
                (Demo.ds1_client (Draft 1)) Demo.draft_calls).
  discriminate H; [demo_resolved|reflexivity..].
Qed.

Lemma directory_requires_recursive_witness :
  Resolved Demo.host Demo.svc Demo.TBRN_init Demo.obj "tb:ds1:seg1/a/#1"
    Demo.directory_draft (Demo.ds1_client (Draft 1)) Demo.draft_calls
  ∧ endswith (remote_path Demo.directory_draft) "/" = true
  ∧ Demo.rm "tb:ds1:seg1/a/#1" false
    = (Exited 1,
       Demo.draft_calls ++ [Echo "Please use -r option to remove recursively"]).
Proof.
  split; [demo_resolved|]. split; [reflexivity|].
  destruct (directory_requires_recursive Demo.host Demo.svc Demo.TBRN_init
              Demo.TBRN_str Demo.obj "tb:ds1:seg1/a/#1" Demo.directory_draft
              (Demo.ds1_client (Draft 1)) Demo.draft_calls 1%positive)
    as (_ & H & _); [demo_resolved|reflexivity|reflexivity|reflexivity|].
  exact H.
Defined.

Lemma empty_resolved_set_is_never_deleted_witness :
  Resolved Demo.host Demo.svc Demo.TBRN_init Demo.obj "tb:ds1:seg1/a/3.jpg#1"
    Demo.file_missing_draft (Demo.ds1_client (Draft 1)) Demo.draft_calls
  ∧ filter_data ["a/1.jpg"; "a/2.jpg"; "b/1.jpg"] "a/3.jpg" false = ∅
  ∧ Demo.rm "tb:ds1:seg1/a/3.jpg#1" false
    = (Exited 1,
       Demo.draft_calls
       ++ [CallGetSegment (Demo.ds1_client (Draft 1)) "seg1";
           CallListDataPaths Demo.seg1_client;
           Echo ("No such file " +:+ quoted "tb:ds1:seg1/a/3.jpg#1" +:+ " ")]).
Proof.
  split; [demo_resolved|]. split; [reflexivity|].
  destruct (empty_resolved_set_is_never_deleted Demo.host Demo.svc
              Demo.TBRN_init Demo.TBRN_str Demo.obj "tb:ds1:seg1/a/3.jpg#1"
              false) as (_ & H).
  destruct (H Demo.file_missing_draft (Demo.ds1_client (Draft 1))
              Demo.draft_calls ["a/1.jpg"; "a/2.jpg"; "b/1.jpg"])
    as (He & _);
    [demo_resolved|reflexivity|discriminate|reflexivity|].
  destruct He as (Hrun & _); [reflexivity|exact Hrun].
Defined.

(** C9 fails as stated: on a locator the parser refuses the command prints no
    diagnostic and does not call [sys.exit]; the parse error escapes. *)
Lemma parse_failure_prints_nothing :
  Demo.TBRN_init "ds1/seg1" = None
  ∧ Demo.rm "ds1/seg1" false = (Raised MalformedLocator, [])
  ∧ echoes (snd (Demo.rm "ds1/seg1" false)) = []
  ∧ ¬ (∀ host svc TBRN_init TBRN_str obj tbrn is_recursive gas,
          get_gas host (access_key obj) (url obj) (profile_name obj)
          = (Returned gas, []) ->
          TBRN_init tbrn = None ->
          fst (_implement_rm host svc TBRN_init TBRN_str obj tbrn
                 is_recursive) = Exited 1
          ∧ ∃ msg,
              echoes (snd (_implement_rm host svc TBRN_init TBRN_str obj tbrn
                             is_recursive)) = [msg]).
Proof.
  repeat split; try reflexivity.
  intros H.
  destruct (H Demo.host Demo.svc Demo.TBRN_init Demo.TBRN_str Demo.obj
              "ds1/seg1" false
              {| gas_access_key := "Accesskey-0123"; gas_url := EmptyString |}
              eq_refl eq_refl) as [Hexit _].
  discriminate Hexit.
Qed.

Lemma exit_status_and_diagnostics_witness :
  Resolved Demo.host Demo.svc Demo.TBRN_init Demo.obj "tb:ds1:seg1#v2"
    Demo.segment_revision (Demo.ds1_client (Revision "v2"))
    Demo.revision_calls
  ∧ rm_guard Demo.segment_revision true = Some NotInDraft
  ∧ fst (Demo.rm "tb:ds1:seg1#v2" true) = Exited 1
  ∧ echoes (snd (Demo.rm "tb:ds1:seg1#v2" true))
    = [diagnostic NotInDraft "tb:ds1:seg1#v2" "tb:ds1:seg1"].
Proof.
  split; [demo_resolved|]. split; [reflexivity|].
  destruct (exit_status_and_diagnostics Demo.host Demo.svc Demo.TBRN_init
              Demo.TBRN_str Demo.obj "tb:ds1:seg1#v2" true) as (H & _).
  apply (H Demo.segment_revision (Demo.ds1_client (Revision "v2"))
           Demo.revision_calls NotInDraft); [demo_resolved|reflexivity].
Defined.

Lemma fusion_dataset_fails_at_resolution_witness :
  Demo.TBRN_init "tb:fds:seg1#1" = Some Demo.fusion_segment_draft
  ∧ dataset_shape Demo.svc (dataset_name Demo.fusion_segment_draft) = Some true
  ∧ Demo.rm "tb:fds:seg1#1" true
    = (Raised DatasetTypeError, [CallGetDataset "fds" (Some false)]).
Proof.
  split; [reflexivity|]. split; [reflexivity|].
  destruct (fusion_dataset_fails_at_resolution Demo.host Demo.svc
              Demo.TBRN_init Demo.TBRN_str Demo.obj "tb:fds:seg1#1" true)
    as (_ & H & _).
  apply (H {| gas_access_key := "Accesskey-0123"; gas_url := EmptyString |}
           Demo.fusion_segment_draft); reflexivity.
Defined.

(** * Further properties of [utility.py] and [rm.py] *)

(** ** Strings *)

Lemma string_app_cons (c : ascii) (s t : string) :
  String c s +:+ t = String c (s +:+ t).
Proof. reflexivity. Qed.

Lemma string_app_assoc (s t u : string) : (s +:+ t) +:+ u = s +:+ (t +:+ u).
Proof.
  induction s as [|c s IH]; [reflexivity|].
  rewrite !string_app_cons. by rewrite IH.
Qed.

Lemma all_chars_app (p : ascii -> bool) (s t : string) :
  all_chars p (s +:+ t) = all_chars p s && all_chars p t.
Proof.
  induction s as [|c s IH]; [reflexivity|].
  rewrite string_app_cons. cbn [all_chars]. rewrite IH.
  by rewrite andb_assoc.
Qed.

Lemma all_chars_impl (p q : ascii -> bool) (s : string) :
  (∀ c, p c = true -> q c = true) ->
  all_chars p s = true -> all_chars q s = true.
Proof.
  intros Hpq. induction s as [|c s IH]; [done|]. cbn [all_chars].
  intros [Hc Hs]%andb_prop. rewrite (Hpq c Hc), (IH Hs). reflexivity.
Qed.

Lemma line_boundary_isspace (c : ascii) :
  is_line_boundary c = true -> isspace c = true.
Proof.
  destruct c as [[] [] [] [] [] [] [] []]; vm_compute; congruence.
Qed.

(** ** Lines *)

Lemma splitlines_line (line rest : string) :
  single_line line = true ->
  splitlines (line +:+ newline +:+ rest) = line :: splitlines rest.
Proof.
  unfold single_line. induction line as [|c line IH]; intros Hl.
  - change (EmptyString +:+ newline +:+ rest) with (String LF rest).
    cbn [splitlines]. change (is_line_boundary LF) with true. cbn match.
    destruct rest as [|c' rest']; reflexivity.
  - cbn [all_chars] in Hl. apply andb_prop in Hl as [Hc Hl].
    rewrite string_app_cons. cbn [splitlines].
    apply negb_true_iff in Hc. rewrite Hc, (IH Hl). reflexivity.
Qed.

Lemma splitlines_empty_line (rest : string) :
  splitlines (newline +:+ rest) = EmptyString :: splitlines rest.
Proof. exact (splitlines_line EmptyString rest eq_refl). Qed.

Lemma splitlines_last_line (line : string) :
  single_line line = true ->
  splitlines line = if truthy line then [line] else [].
Proof.
  unfold single_line. induction line as [|c line IH]; intros Hl; [done|].
  cbn [all_chars] in Hl. apply andb_prop in Hl as [Hc Hl].
  cbn [splitlines truthy]. apply negb_true_iff in Hc. rewrite Hc, (IH Hl).
  by destruct line.
Qed.

Lemma splitlines_single_lines (s : string) :
  Forall (fun line => single_line line = true) (splitlines s).
Proof.
  unfold single_line. induction s as [|c s IH]; [constructor|].
  cbn [splitlines]. destruct (is_line_boundary c) eqn:Hc.
  - constructor; [reflexivity|].
    destruct s as [|c' s']; [constructor|].
    destruct (Ascii.eqb c CR && Ascii.eqb c' LF) eqn:Hcrlf; [|exact IH].
    apply andb_prop in Hcrlf as [_ Hlf%Ascii.eqb_eq]. subst c'.
    cbn [splitlines] in IH. change (is_line_boundary LF) with true in IH.
    cbn match in IH. inversion IH as [|? ? _ Hrest]; subst.
    destruct s' as [|c'' s'']; [constructor|exact Hrest].
  - destruct (splitlines s) as [|line lines].
    + constructor; [|constructor]. cbn [all_chars]. by rewrite Hc.
    + inversion IH as [|? ? Hline Hlines]; subst.
      constructor; [|done]. cbn [all_chars]. by rewrite Hc, Hline.
Qed.

(** ** Stripping *)

Lemma rstrip_all_chars (p : ascii -> bool) (s : string) :
  all_chars p s = true -> all_chars p (rstrip s) = true.
Proof.
  induction s as [|c s IH]; [done|]. cbn [all_chars rstrip].
  intros [Hc Hs]%andb_prop. specialize (IH Hs).
  destruct (rstrip s) as [|c' kept].
  - destruct (isspace c); [reflexivity|]. cbn [all_chars]. by rewrite Hc.
  - cbn [all_chars] in *. by rewrite Hc, IH.
Qed.

Lemma lstrip_all_chars (p : ascii -> bool) (s : string) :
  all_chars p s = true -> all_chars p (lstrip s) = true.
Proof.
  induction s as [|c s IH]; [done|]. cbn [all_chars lstrip].
  intros Hcs. destruct (isspace c).
  - apply andb_prop in Hcs as [_ Hs]. by apply IH.
  - exact Hcs.
Qed.

Lemma rstrip_no_trailing_space (s before : string) (c : ascii) :
  rstrip s = before +:+ String c EmptyString -> isspace c = false.
Proof.
  revert before. induction s as [|a s IH]; intros before.
  - cbn [rstrip]. destruct before; discriminate.
  - cbn [rstrip]. destruct (rstrip s) as [|a' kept] eqn:Hr.
    + destruct (isspace a) eqn:Ha; [destruct before; discriminate|].
      destruct before as [|b before].
      * intros [= <-]. exact Ha.
      * rewrite string_app_cons. intros H. injection H as _ Hb.
        destruct before; discriminate.
    + destruct before as [|b before].
      * intros H. by injection H.
      * rewrite string_app_cons. intros [= _ Hk]. by apply (IH before).
Qed.

Lemma lstrip_no_leading_space (s rest : string) (c : ascii) :
  lstrip s = String c rest -> isspace c = false.
Proof.
  induction s as [|a s IH]; [discriminate|]. cbn [lstrip].
  destruct (isspace a) eqn:Ha; [exact IH|]. intros [= <- _]. exact Ha.
Qed.

Lemma lstrip_suffix (s : string) : ∃ spaces, s = spaces +:+ lstrip s.
Proof.
  induction s as [|a s [spaces IH]]; [by exists EmptyString|].
  cbn [lstrip]. destruct (isspace a).
  - exists (String a spaces). rewrite string_app_cons. by rewrite <- IH.
  - by exists EmptyString.
Qed.

Lemma rstrip_spaces (s : string) :
  all_chars isspace s = true -> rstrip s = EmptyString.
Proof.
  induction s as [|c s IH]; [done|]. cbn [all_chars rstrip].
  intros [Hc Hs]%andb_prop. by rewrite (IH Hs), Hc.
Qed.

Lemma rstrip_idempotent_on_kept (c : ascii) (s : string) :
  isspace c = false -> rstrip (String c s) = String c (rstrip s).
Proof.
  intros Hc. cbn [rstrip]. destruct (rstrip s); [by rewrite Hc|reflexivity].
Qed.

(** ** [_clean_up] *)

Lemma clean_up_lines (text : string) :
  _clean_up (Some text)
  = match List.map rstrip (List.filter is_content_line (splitlines text)) with
    | [] => (EmptyString, EmptyString)
    | first :: others => (lstrip first, String.concat newline others)
    end.
Proof. by destruct text. Qed.

Lemma content_lines_single (text : string) :
  Forall (fun line => single_line line = true)
    (List.map rstrip (List.filter is_content_line (splitlines text))).
Proof.
  pose proof (splitlines_single_lines text) as H.
  induction H as [|line lines Hline _ IH]; [constructor|].
  cbn [List.filter]. destruct (is_content_line line); [|exact IH].
  cbn [List.map]. constructor; [|exact IH].
  by apply rstrip_all_chars.
Qed.

Lemma concat_single_lines (lines : list string) :
  Forall (fun line => single_line line = true) lines ->
  all_chars (fun c => negb (is_line_boundary c) || Ascii.eqb c LF)
    (String.concat newline lines) = true.
Proof.
  induction 1 as [|line lines Hline _ IH]; [reflexivity|].
  assert (all_chars (fun c => negb (is_line_boundary c) || Ascii.eqb c LF) line
          = true) as Hl.
  { revert Hline. apply all_chars_impl. by intros c ->. }
  cbn [String.concat]. destruct lines as [|next lines]; [exact Hl|].
  rewrite !all_chars_app, Hl, IH. reflexivity.
Qed.

Lemma sharp_is_no_space : isspace "#" = false.
Proof. reflexivity. Qed.

Lemma space_is_no_sharp (c : ascii) (s : string) :
  isspace c = true -> startswith (String c s) "#" = false.
Proof.
  intros Hc. unfold startswith. cbn [String.prefix].
  destruct (ascii_dec "#" c) as [<-|]; [discriminate Hc|reflexivity].
Qed.

Lemma only_comments_no_content (text : string) :
  OnlyComments text ->
  List.filter is_content_line (splitlines text) = [].
Proof.
  induction 1 as [|rest _ IH|comment rest Hc _ IH|comment Hc].
  - reflexivity.
  - rewrite splitlines_empty_line. exact IH.
  - change ("#" +:+ comment +:+ newline +:+ rest)
      with (String "#" (comment +:+ newline +:+ rest)).
    rewrite <- string_app_cons.
    rewrite (splitlines_line (String "#" comment) rest) by exact Hc.
    cbn [List.filter]. unfold is_content_line at 1, startswith.
    cbn [truthy String.prefix].
    destruct (ascii_dec "#" "#") as [_|Hne]; [|done].
    destruct comment; exact IH.
  - change ("#" +:+ comment) with (String "#" comment).
    rewrite (splitlines_last_line (String "#" comment)) by exact Hc.
    cbn [truthy List.filter]. unfold is_content_line, startswith.
    cbn [truthy String.prefix].
    destruct (ascii_dec "#" "#") as [_|Hne]; [|done].
    by destruct comment.
Qed.

(** X1.  The title [_clean_up] returns is one line without white space at
    either end. *)
Theorem clean_up_title_is_stripped (editor_input : option string) :
  single_line (fst (_clean_up editor_input)) = true
  ∧ (∀ c rest, fst (_clean_up editor_input) = String c rest ->
               isspace c = false)
  ∧ (∀ before c,
        fst (_clean_up editor_input) = before +:+ String c EmptyString ->
        isspace c = false).
Proof.
  destruct editor_input as [text|]; [|by repeat split; intros [] ?].
  rewrite clean_up_lines.
  pose proof (content_lines_single text) as Hlines.
  destruct (List.filter is_content_line (splitlines text)) as [|line lines];
    [by repeat split; intros [] ?|].
  cbn [List.map fst] in *. inversion Hlines as [|? ? Hline _]; subst.
  split; [by apply lstrip_all_chars|]. split.
  - intros c rest. apply lstrip_no_leading_space.
  - intros before c Ht.
    destruct (lstrip_suffix (rstrip line)) as [spaces Hs].
    rewrite Ht, <- string_app_assoc in Hs.
    exact (rstrip_no_trailing_space _ _ _ Hs).
Qed.

(** X2.  In the description [_clean_up] returns every line boundary is a
    line feed: carriage returns and the other boundaries of the input are
    normalised away. *)
Theorem clean_up_description_uses_line_feeds (editor_input : option string) :
  all_chars (fun c => negb (is_line_boundary c) || Ascii.eqb c LF)
    (snd (_clean_up editor_input)) = true.
Proof.
  destruct editor_input as [text|]; [|reflexivity].
  rewrite clean_up_lines.
  pose proof (content_lines_single text) as Hlines.
  destruct (List.map rstrip _) as [|first others]; [reflexivity|].
  cbn [snd]. inversion Hlines; subst. by apply concat_single_lines.
Qed.

(** X3.  A text of comment lines and empty lines only gives the empty title
    and the empty description, just as no text at all. *)
Theorem clean_up_only_comments (text : string) :
  OnlyComments text ->
  _clean_up (Some text) = (EmptyString, EmptyString)
  ∧ _clean_up (Some text) = _clean_up None.
Proof.
  intros H. rewrite clean_up_lines, (only_comments_no_content text H).
  by split.
Qed.

(** X4.  A comment line or an empty line at the head of the text does not
    change the result. *)
Theorem clean_up_skips_leading_comment (comment rest : string) :
  single_line comment = true ->
  _clean_up (Some ("#" +:+ comment +:+ newline +:+ rest))
  = _clean_up (Some rest)
  ∧ _clean_up (Some (newline +:+ rest)) = _clean_up (Some rest).
Proof.
  intros Hc. rewrite !clean_up_lines. split.
  - change ("#" +:+ comment +:+ newline +:+ rest)
      with (String "#" (comment +:+ newline +:+ rest)).
    rewrite <- string_app_cons.
    rewrite (splitlines_line (String "#" comment) rest) by exact Hc.
    cbn [List.filter]. unfold is_content_line at 1, startswith.
    cbn [truthy String.prefix].
    destruct (ascii_dec "#" "#") as [_|Hne]; [|done].
    by destruct comment.
  - by rewrite splitlines_empty_line.
Qed.

(** X5.  A first line of blanks only is not skipped: it is kept as the
    title, which is then empty, and the lines after it form the
    description. *)
Theorem clean_up_blank_first_line (blanks rest : string) :
  truthy blanks = true ->
  all_chars (fun c => isspace c && negb (is_line_boundary c)) blanks = true ->
  _clean_up (Some (blanks +:+ newline +:+ rest))
  = (EmptyString,
     String.concat newline
       (List.map rstrip (List.filter is_content_line (splitlines rest)))).
Proof.
  intros Hne Hb. rewrite clean_up_lines.
  assert (single_line blanks = true) as Hsl.
  { revert Hb. apply all_chars_impl. by intros c [_ ?]%andb_prop. }
  assert (all_chars isspace blanks = true) as Hsp.
  { revert Hb. apply all_chars_impl. by intros c [? _]%andb_prop. }
  rewrite (splitlines_line blanks rest Hsl). cbn [List.filter].
  assert (is_content_line blanks = true) as ->.
  { unfold is_content_line. rewrite Hne.
    destruct blanks as [|c blanks]; [discriminate Hne|].
    cbn [all_chars] in Hsp. apply andb_prop in Hsp as [Hc _].
    by rewrite (space_is_no_sharp c blanks Hc). }
  cbn [List.map]. by rewrite (rstrip_spaces blanks Hsp).
Qed.

(** X6.  Only a [#] in the first column makes a comment: a line whose [#]
    follows a blank is kept, and as first line it gives a title that starts
    with [#]. *)
Theorem clean_up_keeps_indented_comment (text : string) :
  single_line text = true ->
  _clean_up (Some (" #" +:+ text))
  = ("#" +:+ rstrip text, EmptyString).
Proof.
  intros Ht. rewrite clean_up_lines.
  change (" #" +:+ text) with (String " " (String "#" text)).
  rewrite (splitlines_last_line (String " " (String "#" text))) by exact Ht.
  cbn [truthy List.filter]. unfold is_content_line, startswith.
  cbn [truthy String.prefix andb negb].
  destruct (ascii_dec "#" " ") as [Heq|_]; [discriminate Heq|].
  cbn [List.map negb].
  change (rstrip (String " " (String "#" text)))
    with (match rstrip (String "#" text) with
          | EmptyString => EmptyString
          | String _ _ as kept => String " " kept
          end).
  rewrite (rstrip_idempotent_on_kept "#" text sharp_is_no_space).
  reflexivity.
Qed.

(** ** [edit_input] *)

(** X7.  Without the variable that names the home directory ([USERPROFILE]
    on Windows, [HOME] elsewhere) [edit_input] fails with a [KeyError]
    before the editor is asked for anything. *)
Theorem edit_input_needs_home (host : Host)
    (click_edit : string -> option string -> M (option string))
    (hint : string) :
  environ host (if String.eqb (os_name host) "nt" then "USERPROFILE"
                else "HOME") = None ->
  edit_input host click_edit hint = (Raised KeyError, []).
Proof.
  intros He. unfold edit_input, get_config_filepath. by rewrite He.
Qed.


(** ** [get_gas] *)

Lemma get_gas_outcomes (host : Host) (access_key url profile_name : string) :
  (∃ gas, get_gas host access_key url profile_name = (Returned gas, [])
          ∧ truthy (gas_access_key gas) = true)
  ∨ (∃ message,
        get_gas host access_key url profile_name
        = (Exited 1, [Echo ("ERROR: " +:+ message)]))
  ∨ get_gas host access_key url profile_name = (Raised KeyError, []).
Proof.
  unfold get_gas, get_config_filepath, read_config, when, error, echo, emit,
    sys_exit, raise.
  destruct (truthy access_key) eqn:Ha; cbn.
  - rewrite Ha; cbn. left. eexists. split; [reflexivity|exact Ha].
  - destruct (truthy url) eqn:Hu; cbn.
    + rewrite Ha; cbn. right. left. eexists. reflexivity.
    + destruct (environ host _); cbn; [|by right; right].
      destruct (path_exists host _); cbn;
        [|right; left; eexists; reflexivity].
      destruct (config_sections host _ _) as [sec|]; cbn; [|by right; right].
      destruct (sec "accessKey") as [k|]; cbn; [|by right; right].
      destruct (truthy k) eqn:Hk; cbn.
      * left. eexists. split; [reflexivity|exact Hk].
      * right. left. eexists. reflexivity.
Qed.


(** X10.  A client [get_gas] returns always carries a non-empty access key,
    and nothing was printed on the way. *)
Theorem get_gas_returns_a_key (host : Host)
    (access_key url profile_name : string) (gas : GAS) (t : list Event) :
  get_gas host access_key url profile_name = (Returned gas, t) ->
  truthy (gas_access_key gas) = true ∧ t = [].
Proof.
  intros H.
  destruct (get_gas_outcomes host access_key url profile_name)
    as [(gas' & H' & Hk)|[(m & H')|H']]; rewrite H' in H;
    [|discriminate H..].
  by injection H as <- <-.
Qed.

(** X11.  An access key given on the command line wins: [get_gas] returns
    the client for that key and that URL on every machine, without looking
    at the environment or at the configuration file. *)
Theorem get_gas_with_access_key (host : Host)
    (access_key url profile_name : string) :
  truthy access_key = true ->
  get_gas host access_key url profile_name
  = (Returned {| gas_access_key := access_key; gas_url := url |}, []).
Proof.
  intros Ha. unfold get_gas. rewrite Ha. cbn. rewrite Ha. reflexivity.
Qed.

(** X12.  A URL without an access key is refused on every machine: the
    configuration file is not consulted for the key, the command prints
    [ERROR: AccessKey should be appointed] and exits with status 1. *)
Theorem get_gas_with_url_only (host : Host) (url profile_name : string) :
  truthy url = true ->
  get_gas host EmptyString url profile_name
  = (Exited 1, [Echo "ERROR: AccessKey should be appointed"]).
Proof.
  intros Hu. unfold get_gas. cbn [truthy negb andb]. rewrite Hu. reflexivity.
Qed.

(** X13.  With neither key nor URL on the command line, the client is built
    from the profile of the configuration file in the home directory: its
    [accessKey], and its [url] or the empty URL when the profile has none. *)
Theorem get_gas_from_profile (host : Host) (profile_name home key : string)
    (section : string -> option string) :
  environ host (if String.eqb (os_name host) "nt" then "USERPROFILE"
                else "HOME") = Some home ->
  path_exists host (path_join host home ".gasconfig") = true ->
  config_sections host (path_join host home ".gasconfig") profile_name
  = Some section ->
  section "accessKey" = Some key ->
  truthy key = true ->
  get_gas host EmptyString EmptyString profile_name
  = (Returned {| gas_access_key := key;
                 gas_url := default EmptyString (section "url") |}, []).
Proof.
  intros He Hp Hs Hk Ht.
  unfold get_gas, get_config_filepath, read_config, when.
  cbn [truthy negb andb]. rewrite He, ret_bind, Hp. cbn [negb].
  rewrite ret_bind, Hs, Hk, ret_bind, Ht. cbn [negb].
  rewrite ret_bind. by destruct (section "url").
Qed.

(** X14.  With neither key nor URL on the command line and no configuration
    file in the home directory, [get_gas] names the missing file, tells how
    to create it, and exits with status 1. *)
Theorem get_gas_without_config_file (host : Host)
    (profile_name home : string) :
  environ host (if String.eqb (os_name host) "nt" then "USERPROFILE"
                else "HOME") = Some home ->
  path_exists host (path_join host home ".gasconfig") = false ->
  get_gas host EmptyString EmptyString profile_name
  = (Exited 1,
     [Echo ("ERROR: " +:+ path_join host home ".gasconfig" +:+ " not exist"
            +:+ newline +:+ newline
            +:+ "Please use 'gas config <accessKey>' to create config file")]).
Proof.
  intros He Hp.
  unfold get_gas, get_config_filepath, read_config, when, error.
  cbn [truthy negb andb]. rewrite He, ret_bind, Hp. cbn [negb].
  reflexivity.
Qed.

(** X15.  With neither key nor URL on the command line, a missing home
    variable, a missing profile and a profile without [accessKey] are not
    reported: a [KeyError] escapes and nothing is printed. *)
Theorem get_gas_key_errors (host : Host) (profile_name : string) :
  let home_variable :=
    if String.eqb (os_name host) "nt" then "USERPROFILE" else "HOME" in
  (environ host home_variable = None
   ∨ ∃ home,
       environ host home_variable = Some home
       ∧ path_exists host (path_join host home ".gasconfig") = true
       ∧ (config_sections host (path_join host home ".gasconfig") profile_name
          = None
          ∨ ∃ section,
              config_sections host (path_join host home ".gasconfig")
                profile_name = Some section
              ∧ section "accessKey" = None)) ->
  get_gas host EmptyString EmptyString profile_name = (Raised KeyError, []).
Proof.
  intros home_variable H.
  unfold get_gas, get_config_filepath, read_config, when.
  cbn [truthy negb andb]. fold home_variable.
  destruct H as [He|(home & He & Hp & H)].
  - by rewrite He.
  - rewrite He, ret_bind, Hp. cbn [negb]. rewrite ret_bind.
    destruct H as [Hs|(section & Hs & Hk)].
    + by rewrite Hs.
    + by rewrite Hs, Hk.
Qed.

(** ** [get_dataset_client] *)

(** X16.  Whatever the [is_fusion] argument, [get_dataset_client] first
    looks the dataset of the locator up with that argument, and then makes at
    most one more call: the checkout of the draft or of the revision the
    locator names, on the client the lookup gave.  Without a version there
    is no checkout.  It prints nothing and never exits. *)
Theorem get_dataset_client_calls (svc : Service) (gas : GAS) (info : TBRN)
    (is_fusion : option bool) :
  ∃ rest,
    snd (get_dataset_client svc gas info is_fusion)
    = CallGetDataset (dataset_name info) is_fusion :: rest
    ∧ (rest = []
       ∨ ∃ shape,
           rest = [CallCheckout
                     {| client_dataset := dataset_name info;
                        client_is_fusion := shape;
                        client_status := NoVersion |}
                     (revision info) (draft_number info)])
    ∧ (version info = NoVersion -> rest = [])
    ∧ echoes (snd (get_dataset_client svc gas info is_fusion)) = []
    ∧ ∀ c, fst (get_dataset_client svc gas info is_fusion) ≠ Exited c.
Proof.
  unfold get_dataset_client, gas_get_dataset, gas_get_dataset_with_any_type,
    checkout, emit, raise, is_draft, draft_number, revision.
  destruct is_fusion as [b|];
    destruct (dataset_shape svc (dataset_name info)) as [shape|]; cbn;
    try (eexists; repeat split; [by left|discriminate]);
    try destruct (Bool.eqb shape b); cbn;
    try (eexists; repeat split; [by left|discriminate]);
    destruct (version info) as [|n|r]; cbn;
    try destruct (has_version svc _ _ _); cbn;
    eexists; (split; [reflexivity|]);
    (split; [first [by left|right; by eexists]|]);
    (split; [done|]); (split; [reflexivity|discriminate]).
Qed.

(** X17.  A client [get_dataset_client] returns is a client of the dataset
    the locator names, in the version context the locator names, and of the
    shape the service knows for that dataset; when [is_fusion] was given, the
    shape is the one asked for. *)
Theorem get_dataset_client_returns (svc : Service) (gas : GAS) (info : TBRN)
    (is_fusion : option bool) (client : DatasetClient) (calls : list Event) :
  get_dataset_client svc gas info is_fusion = (Returned client, calls) ->
  client_dataset client = dataset_name info
  ∧ client_status client = version info
  ∧ dataset_shape svc (dataset_name info) = Some (client_is_fusion client)
  ∧ (∀ b, is_fusion = Some b -> client_is_fusion client = b).
Proof.
  unfold get_dataset_client, gas_get_dataset, gas_get_dataset_with_any_type,
    checkout, emit, raise, is_draft, draft_number, revision.
  destruct is_fusion as [b|];
    destruct (dataset_shape svc (dataset_name info)) as [shape|]; cbn;
    try discriminate;
    try (destruct (Bool.eqb shape b) eqn:Hb; cbn; try discriminate;
         apply Bool.eqb_prop in Hb; subst b);
    destruct (version info) as [|n|r]; cbn;
    try destruct (has_version svc _ _ _); cbn;
    intros H; inversion H; subst; cbn;
    repeat split; try done; by intros ? [= <-].
Qed.

(** ** [_implement_rm] *)

Lemma guard_passed (info : TBRN) (is_recursive : bool) :
  rm_guard info is_recursive = None ->
  (∃ n, version info = Draft n)
  ∧ (type info = SEGMENT ∧ is_recursive = true ∨ type info = NORMAL_FILE).
Proof.
  unfold rm_guard, is_draft. destruct info as [k d s p v]; cbn.
  destruct k; cbn; try discriminate; destruct v; cbn; try discriminate;
    destruct is_recursive; cbn; try discriminate;
    intros _; (split; [by eexists|]); first [by left|by right].
Qed.

Lemma resolved_client (host : Host) (svc : Service)
    (TBRN_init : string -> option TBRN) (obj : Obj) (tbrn : string)
    (info : TBRN) (client : DatasetClient) (calls : list Event) :
  Resolved host svc TBRN_init obj tbrn info client calls ->
  client = {| client_dataset := dataset_name info;
              client_is_fusion := false;
              client_status := version info |}.
Proof.
  intros (gas & _ & _ & Hc). revert Hc.
  unfold get_dataset_client, gas_get_dataset, checkout, emit, raise, is_draft,
    draft_number, revision.
  destruct (dataset_shape svc (dataset_name info)) as [[|]|]; cbn;
    try discriminate.
  destruct (version info) as [|n|r]; cbn;
    try destruct (has_version svc _ _ _); cbn;
    intros H; inversion H; reflexivity.
Qed.

Section MoreOfRm.

Variable host : Host.
Variable svc : Service.
Variable TBRN_init : string -> option TBRN.
Variable TBRN_str : TBRN -> string.

Local Abbreviation rm := (_implement_rm host svc TBRN_init TBRN_str).

(** X18.  An invocation issues at most one delete call, and when it issues
    one it is the last thing it does. *)
Theorem rm_deletes_at_most_once (obj : Obj) (tbrn : string)
    (is_recursive : bool) :
  List.filter is_delete_call (snd (rm obj tbrn is_recursive)) = []
  ∨ ∃ t e,
      snd (rm obj tbrn is_recursive) = t ++ [e]
      ∧ is_delete_call e = true
      ∧ List.filter is_delete_call t = [].
Proof.
  pose proof (implement_rm_run host svc TBRN_init TBRN_str obj tbrn
                is_recursive) as Hrun.
  destruct (rm obj tbrn is_recursive) as [o t]. cbn.
  inversion Hrun as [msg Hl|e Hl|gas Hl Hn|gas info e calls Hl Hp Hc
                    |info client calls o' t' Hres Hgr]; subst;
    try (by left).
  - left. by destruct (resolution_calls_facts _ (unresolved_calls _ _ _ _ _ Hc))
      as (_ & _ & ->).
  - destruct (resolution_calls_facts _ (resolved_calls _ _ _ _ _ _ _ _ Hres))
      as (_ & _ & Hnd).
    inversion Hgr; subst.
    + left. by rewrite List.filter_app, Hnd.
    + right. eexists calls, _. by repeat split.
    + left. by rewrite List.filter_app, Hnd.
    + left. by rewrite List.filter_app, Hnd.
    + right. eexists (calls ++ [_; _]), _. rewrite <- app_assoc.
      repeat split. by rewrite List.filter_app, Hnd.
Qed.

(** X19.  Only drafts are changed, and only where the locator points: every
    delete call of an invocation is made on the plain client of the dataset
    the locator names, checked out to the draft the locator names, and
    deletes either the segment the locator names (a SEGMENT locator with the
    recursive flag) or data of that segment (a NORMAL_FILE locator). *)
Theorem rm_deletes_only_in_the_named_draft (obj : Obj) (tbrn : string)
    (is_recursive : bool) (e : Event) :
  e ∈ snd (rm obj tbrn is_recursive) ->
  is_delete_call e = true ->
  ∃ info n,
    TBRN_init tbrn = Some info
    ∧ version info = Draft n
    ∧ let client := {| client_dataset := dataset_name info;
                       client_is_fusion := false;
                       client_status := Draft n |} in
      (type info = SEGMENT ∧ is_recursive = true
       ∧ e = CallDeleteSegment client (segment_name info))
      ∨ (type info = NORMAL_FILE
         ∧ ∃ paths,
             e = CallDeleteData
                   {| segment_dataset := client;
                      segment_client_name := segment_name info |} paths).
Proof.
  pose proof (implement_rm_run host svc TBRN_init TBRN_str obj tbrn
                is_recursive) as Hrun.
  destruct (rm obj tbrn is_recursive) as [o t]. cbn.
  intros He Hd.
  inversion Hrun as [msg Hl|e' Hl|gas Hl Hn|gas info e' calls Hl Hp Hc
                    |info client calls o' t' Hres Hgr]; subst.
  - apply list_elem_of_singleton in He. subst. discriminate.
  - by apply elem_of_nil in He.
  - by apply elem_of_nil in He.
  - apply (proj1 (Forall_forall _ _) (unresolved_calls _ _ _ _ _ Hc)) in He.
    destruct e; discriminate.
  - apply elem_of_app in He as [He|He].
    { apply (proj1 (Forall_forall _ _) (resolved_calls _ _ _ _ _ _ _ _ Hres))
        in He. destruct e; discriminate. }
    pose proof (resolved_client _ _ _ _ _ _ _ _ Hres) as Hclient.
    subst client. destruct Hres as (gas & _ & Hp & _).
    inversion Hgr as [r Hg|Hg Hk|Hg Hk Hs|paths Hg Hk Hs Hf|paths Hg Hk Hs Hf];
      subst;
      repeat (apply elem_of_cons in He as [He|He]; try (subst e; discriminate));
      try (by apply elem_of_nil in He);
      subst e;
      destruct (guard_passed info is_recursive Hg) as ([n Hv] & Hkind);
      exists info, n; (split; [exact Hp|]); (split; [exact Hv|]);
      cbn; rewrite <- Hv.
    + left. destruct Hkind as [[_ Hr]|Hn]; [|congruence]. by repeat split.
    + right. destruct Hkind as [[Hseg _]|Hn]; [congruence|].
      split; [exact Hn|]. by eexists.
Qed.


End MoreOfRm.

(** ** The further properties on the sample installation *)

Lemma hint_only_comments : OnlyComments EditorDemo.hint.
Proof.
  apply only_empty_line.
  apply (only_comment_line " Please enter the title."); [reflexivity|].
  apply (only_comment_line " Lines starting with '#' are ignored.");
    [reflexivity|].
  apply only_nothing.
Defined.

Lemma clean_up_only_comments_witness :
  OnlyComments EditorDemo.hint
  ∧ _clean_up (Some EditorDemo.hint) = (EmptyString, EmptyString).
Proof.
  split; [exact hint_only_comments|].
  exact (proj1 (clean_up_only_comments EditorDemo.hint hint_only_comments)).
Defined.

Lemma clean_up_skips_leading_comment_witness :
  single_line " note" = true
  ∧ _clean_up (Some ("# note" +:+ newline +:+ "Title"))
    = _clean_up (Some "Title").
Proof.
  split; [reflexivity|].
  exact (proj1 (clean_up_skips_leading_comment " note" "Title" eq_refl)).
Defined.

Lemma clean_up_blank_first_line_witness :
  truthy "  " = true
  ∧ _clean_up (Some ("  " +:+ newline +:+ "body"))
    = (EmptyString, "body").
Proof.
  split; [reflexivity|].
  exact (clean_up_blank_first_line "  " "body" eq_refl eq_refl).
Defined.

Lemma clean_up_keeps_indented_comment_witness :
  single_line " x " = true
  ∧ _clean_up (Some " # x ") = ("# x", EmptyString).
Proof.
  split; [reflexivity|].
  exact (clean_up_keeps_indented_comment " x " eq_refl).
Defined.

Lemma edit_input_needs_home_witness :
  environ EditorDemo.homeless "HOME" = None
  ∧ edit_input EditorDemo.homeless EditorDemo.writes_commit EditorDemo.hint
    = (Raised KeyError, []).
Proof.
  split; [reflexivity|].
  exact (edit_input_needs_home EditorDemo.homeless EditorDemo.writes_commit
           EditorDemo.hint eq_refl).
Defined.


Lemma get_gas_returns_a_key_witness :
  get_gas Demo.host EmptyString EmptyString "default"
  = (Returned {| gas_access_key := "Accesskey-0123";
                 gas_url := EmptyString |}, [])
  ∧ truthy "Accesskey-0123" = true.
Proof.
  split; [reflexivity|].
  exact (proj1 (get_gas_returns_a_key Demo.host EmptyString EmptyString
                  "default"
                  {| gas_access_key := "Accesskey-0123";
                     gas_url := EmptyString |} [] eq_refl)).
Defined.

Lemma get_gas_with_access_key_witness :
  truthy "Accesskey-9" = true
  ∧ get_gas EditorDemo.homeless "Accesskey-9" "https://gas.example" "default"
    = (Returned {| gas_access_key := "Accesskey-9";
                   gas_url := "https://gas.example" |}, []).
Proof.
  split; [reflexivity|].
  exact (get_gas_with_access_key EditorDemo.homeless "Accesskey-9"
           "https://gas.example" "default" eq_refl).
Defined.

Lemma get_gas_with_url_only_witness :
  truthy "https://gas.example" = true
  ∧ get_gas Demo.host EmptyString "https://gas.example" "default"
    = (Exited 1, [Echo "ERROR: AccessKey should be appointed"]).
Proof.
  split; [reflexivity|].
  exact (get_gas_with_url_only Demo.host "https://gas.example" "default"
           eq_refl).
Defined.

Lemma get_gas_from_profile_witness :
  environ Demo.host "HOME" = Some "/home/u"
  ∧ path_exists Demo.host "/home/u/.gasconfig" = true
  ∧ get_gas Demo.host EmptyString EmptyString "default"
    = (Returned {| gas_access_key := "Accesskey-0123";
                   gas_url := EmptyString |}, []).
Proof.
  split; [reflexivity|]. split; [reflexivity|].
  exact (get_gas_from_profile Demo.host "default" "/home/u" "Accesskey-0123"
           (fun k => if String.eqb k "accessKey"
                     then Some "Accesskey-0123" else None)
           eq_refl eq_refl eq_refl eq_refl eq_refl).
Defined.

Lemma get_gas_without_config_file_witness :
  environ EditorDemo.unconfigured "HOME" = Some "/home/u"
  ∧ path_exists EditorDemo.unconfigured "/home/u/.gasconfig" = false
  ∧ get_gas EditorDemo.unconfigured EmptyString EmptyString "default"
    = (Exited 1,
       [Echo ("ERROR: /home/u/.gasconfig not exist" +:+ newline +:+ newline
              +:+ "Please use 'gas config <accessKey>' to create config file")]).
Proof.
  split; [reflexivity|]. split; [reflexivity|].
  exact (get_gas_without_config_file EditorDemo.unconfigured "default"
           "/home/u" eq_refl eq_refl).
Defined.

Lemma get_gas_key_errors_witness :
  environ EditorDemo.homeless "HOME" = None
  ∧ get_gas EditorDemo.homeless EmptyString EmptyString "default"
    = (Raised KeyError, []).
Proof.
  split; [reflexivity|].
  apply (get_gas_key_errors EditorDemo.homeless "default").
  left. reflexivity.
Defined.

Lemma get_dataset_client_returns_witness :
  get_dataset_client Demo.svc
    {| gas_access_key := "Accesskey-0123"; gas_url := EmptyString |}
    Demo.segment_draft None
  = (Returned (Demo.ds1_client (Draft 1)),
     [CallGetDataset "ds1" None;
      CallCheckout (Demo.ds1_client NoVersion) None (Some 1%positive)])
  ∧ client_status (Demo.ds1_client (Draft 1)) = version Demo.segment_draft.
Proof.
  split; [reflexivity|].
  destruct (get_dataset_client_returns Demo.svc
              {| gas_access_key := "Accesskey-0123"; gas_url := EmptyString |}
              Demo.segment_draft None (Demo.ds1_client (Draft 1))
              [CallGetDataset "ds1" None;
               CallCheckout (Demo.ds1_client NoVersion) None (Some 1%positive)]
              eq_refl) as (_ & Hs & _).
  exact Hs.
Defined.

Lemma rm_deletes_only_in_the_named_draft_witness :
  CallDeleteSegment (Demo.ds1_client (Draft 1)) "seg1"
    ∈ snd (Demo.rm "tb:ds1:seg1#1" true)
  ∧ ∃ info n,
      Demo.TBRN_init "tb:ds1:seg1#1" = Some info ∧ version info = Draft n.
Proof.
  assert (CallDeleteSegment (Demo.ds1_client (Draft 1)) "seg1"
            ∈ snd (Demo.rm "tb:ds1:seg1#1" true)) as He.
  { do 2 apply list_elem_of_further. apply list_elem_of_here. }
  split; [exact He|].
  destruct (rm_deletes_only_in_the_named_draft Demo.host Demo.svc
              Demo.TBRN_init Demo.TBRN_str Demo.obj "tb:ds1:seg1#1" true
              _ He eq_refl) as (info & n & Hp & Hv & _).
  exists info, n. split; [exact Hp|exact Hv].
Defined.

